(** * frospy: the interactive spectrum loop

    A shallow embedding of [run] and [set_defaults_init_main] of
    [frospy/spectrum/spectrum_commandline.py].

    The script threads one mutable bag, [main], through an endless
    [while True] loop.  The bag is a record here, the loop body a command
    of a small state monad with [break], [continue] and uncaught
    exceptions as outcomes, and everything the script calls but does not
    define (the controllers, the plotting code, the [Spectrum] class, the
    segment container, the rendering of floats by [%f] and [%e]) is an
    interface the development is parametrised by.  Numbers are IEEE
    binary64 floats, as in Python; windows are lists of them; [%i], which
    raises on NaN and on the infinities, is defined in full. *)

From Stdlib Require Import ZArith List String Ascii Bool Lia.
From Stdlib Require Import Floats DecimalString.
Import ListNotations.

Set Implicit Arguments.
Set Maximal Implicit Insertion.

Local Open Scope string_scope.
Local Open Scope list_scope.
Local Open Scope Z_scope.

(** ** Python values the loop relies on *)

(** [l[k]]: negative indices count from the end, [None] is [IndexError]. *)
Definition py_index {A : Type} (l : list A) (k : Z) : option A :=
  let n := Z.of_nat (List.length l) in
  if 0 <=? k then nth_error l (Z.to_nat k)
  else if - n <=? k then nth_error l (Z.to_nat (n + k))
  else None.

(** [len(l)] as a Python integer. *)
Definition len {A : Type} (l : list A) : Z := Z.of_nat (List.length l).

(** Truth value of a float: everything but zero (of either sign). *)
Definition truthy_float (x : float) : bool := negb (PrimFloat.eqb x 0%float).

(** Truth value of an optional number such as [main.min_snr]. *)
Definition truthy_num (x : option float) : bool :=
  match x with
  | Some v => truthy_float v
  | None => false
  end.

(** Truth value of an optional string or list: set and not empty. *)
Definition truthy_str (x : option string) : bool :=
  match x with
  | Some EmptyString | None => false
  | Some _ => true
  end.

Definition truthy_list {A : Type} (x : option (list A)) : bool :=
  match x with
  | Some [] | None => false
  | Some _ => true
  end.

Definition is_some {A : Type} (x : option A) : bool :=
  match x with
  | Some _ => true
  | None => false
  end.

(** The control characters of the messages. *)
Definition ESC : string := String (ascii_of_nat 27) EmptyString.
Definition NL : string := String (ascii_of_nat 10) EmptyString.
Definition TAB : string := String (ascii_of_nat 9) EmptyString.

(** A Python number that is an [int] or a [float] ([main.fs]). *)
Inductive pynum : Type :=
| PyInt (z : Z)
| PyFloat (x : float).

(** ** Seismological data *)

Record Stats : Type := { station : string; channel : string }.

Record Trace : Type := { stats : Stats; data : list float }.

Definition Stream : Type := list Trace.

(** A picked segment: its station and its frequency and time windows. *)
Record Pick : Type :=
  { pick_station : string; fw1 : float; fw2 : float; tw1 : float; tw2 : float }.

Definition Segments : Type := list Pick.

(** A window [[lo, hi]]: a Python list, which a caller can pass with any
    number of entries. *)
Definition window : Type := list float.

(** One entry of the list [Spectrum.misfit] returns; the loop reads its
    element 1. *)
Definition misfit_entry : Type := (float * float)%type.

(** [mf != main.mf] on lists of floats: element-wise IEEE equality. *)
Fixpoint mf_eqb (a b : list misfit_entry) : bool :=
  match a, b with
  | [], [] => true
  | (x0, x1) :: a', (y0, y1) :: b' =>
      PrimFloat.eqb x0 y0 && PrimFloat.eqb x1 y1 && mf_eqb a' b'
  | _, _ => false
  end.

Definition mf_differs (new : list misfit_entry)
    (old : option (list misfit_entry)) : bool :=
  match old with
  | Some o => negb (mf_eqb new o)
  | None => true
  end.

(** Exceptions: the class, and the text [str(e)] gives.  Every class is
    a subclass of [Exception]. *)
Inductive exn_class : Type :=
| IndexError
| TypeError
| AttributeError
| ValueError
| OverflowError
| OtherException.

Record exn : Type := { exn_cls : exn_class; exn_text : string }.

Definition is_IndexError (e : exn) : bool :=
  match exn_cls e with
  | IndexError => true
  | _ => false
  end.

Definition is_Exception (e : exn) : bool := true.

Definition index_error : exn :=
  {| exn_cls := IndexError; exn_text := "list index out of range" |}.

Definition type_error : exn :=
  {| exn_cls := TypeError; exn_text := "'NoneType' object is not subscriptable" |}.

Definition attribute_error (name : string) : exn :=
  {| exn_cls := AttributeError; exn_text := name |}.

Definition nan_error : exn :=
  {| exn_cls := ValueError;
     exn_text := "cannot convert float NaN to integer" |}.

Definition infinity_error : exn :=
  {| exn_cls := OverflowError;
     exn_text := "cannot convert float infinity to integer" |}.

(** [int(x)] of a finite float: its integer part, rounded towards zero. *)
Definition int_of_float (x : float) : exn + Z :=
  match Prim2SF x with
  | S754_zero _ => inr 0
  | S754_finite s m e =>
      let a := if 0 <=? e then Z.shiftl (Z.pos m) e
               else Z.shiftr (Z.pos m) (- e) in
      inr (if s then - a else a)
  | S754_nan => inl nan_error
  | S754_infinity _ => inl infinity_error
  end.

(** ['%i' % x] of a float: [int(x)] in decimal digits.  NaN raises a
    ValueError and an infinity an OverflowError. *)
Definition fmt_i (x : float) : exn + string :=
  match int_of_float x with
  | inr z => inr (NilZero.string_of_int (Z.to_int z))
  | inl e => inl e
  end.

(** What the outside world sees of a run, in order. *)
Inductive event : Type :=
| Print (s : string)
| QuitSpectrum (save : bool)
| PltIoff
| PltCloseAll
| RemoveStation (save_tmp : bool)
| PlotSpectrum
| NewSpectrum (t : Trace) (t0 t1 : float)
| ProcessInput (n : nat).

Section Spectrum_commandline.

(** [Obj]: opaque objects of the libraries (moment tensor, inventory, mode
    table, figure handles, labels); [Spec]: the [Spectrum] objects. *)
Variables (Obj Spec : Type).

(** ** The state container [main] *)

Record Main : Type :=
  { (* keyword arguments of run *)
    cmt_file : option string;
    cmt_id : option string;
    verbose : bool;
    segment_file : option string;
    search : option string;
    syn : option (list string);
    syn_label : option (list string);
    data_label : option string;
    taper_shape : string;
    stream_order : string;
    seg_reference : bool;
    nowindow : bool;
    save_stream : option bool;
    tw : option window;
    fw : option window;
    (* set by set_defaults_init_main *)
    recalc : bool;
    weighting : string;
    update_maps : bool;
    zoom_sl : float;
    fs : pynum;
    noisewin : bool;
    overlap : bool;
    current_station : option string;
    segments : option Segments;
    rmf : option Obj;
    cmf : option Obj;
    mf : option (list misfit_entry);
    mfac : Z;
    rfig : option Obj;
    rax : option Obj;
    seg_ax : option Obj;
    savefig : bool;
    modes_all : option Obj;
    tw_org : option window;
    qwindow : option window;
    min_snr : option float;
    max_mf : option float;
    set_seg_fw : bool;
    set_seg_tw : bool;
    i : Z;
    i_old : option Z;
    j : Z;
    (* set by run and its collaborators *)
    cmt : option Obj;
    inv : option Obj;
    st : Stream;
    st_work : Stream;
    st_syn : list Stream;
    st_syn_work : list Stream;
    tr : option Trace;
    syn_trs : Stream;
    spec : option Spec;
    startlabel : option Obj;
    endlabel : option Obj }.

Definition etaMain (m : Main) : Main :=
  {| cmt_file := cmt_file m; cmt_id := cmt_id m; verbose := verbose m;
     segment_file := segment_file m; search := search m; syn := syn m;
     syn_label := syn_label m; data_label := data_label m;
     taper_shape := taper_shape m; stream_order := stream_order m;
     seg_reference := seg_reference m; nowindow := nowindow m;
     save_stream := save_stream m; tw := tw m; fw := fw m;
     recalc := recalc m; weighting := weighting m;
     update_maps := update_maps m; zoom_sl := zoom_sl m; fs := fs m;
     noisewin := noisewin m; overlap := overlap m;
     current_station := current_station m; segments := segments m;
     rmf := rmf m; cmf := cmf m; mf := mf m; mfac := mfac m;
     rfig := rfig m; rax := rax m; seg_ax := seg_ax m;
     savefig := savefig m; modes_all := modes_all m; tw_org := tw_org m;
     qwindow := qwindow m; min_snr := min_snr m; max_mf := max_mf m;
     set_seg_fw := set_seg_fw m; set_seg_tw := set_seg_tw m;
     i := i m; i_old := i_old m; j := j m;
     cmt := cmt m; inv := inv m; st := st m; st_work := st_work m;
     st_syn := st_syn m; st_syn_work := st_syn_work m; tr := tr m;
     syn_trs := syn_trs m; spec := spec m; startlabel := startlabel m;
     endlabel := endlabel m |}.

(** [main.f = v]: the record with field [f] replaced, built from
    [etaMain] by abstracting the projection. *)
Ltac field_setter proj :=
  let body := eval cbv [etaMain] in etaMain in
  match eval pattern proj in body with
  | ?g _ => let t := eval cbv beta in (fun v => g (fun _ => v)) in exact t
  end.

Definition set_save_stream : option bool -> Main -> Main := ltac:(field_setter save_stream).
Definition set_tw : option window -> Main -> Main := ltac:(field_setter tw).
Definition set_fw : option window -> Main -> Main := ltac:(field_setter fw).
Definition set_recalc : bool -> Main -> Main := ltac:(field_setter recalc).
Definition set_weighting : string -> Main -> Main := ltac:(field_setter weighting).
Definition set_update_maps : bool -> Main -> Main := ltac:(field_setter update_maps).
Definition set_zoom_sl : float -> Main -> Main := ltac:(field_setter zoom_sl).
Definition set_fs : pynum -> Main -> Main := ltac:(field_setter fs).
Definition set_noisewin : bool -> Main -> Main := ltac:(field_setter noisewin).
Definition set_overlap : bool -> Main -> Main := ltac:(field_setter overlap).
Definition set_current_station : option string -> Main -> Main :=
  ltac:(field_setter current_station).
Definition set_segments : option Segments -> Main -> Main := ltac:(field_setter segments).
Definition set_rmf : option Obj -> Main -> Main := ltac:(field_setter rmf).
Definition set_cmf : option Obj -> Main -> Main := ltac:(field_setter cmf).
Definition set_mf : option (list misfit_entry) -> Main -> Main := ltac:(field_setter mf).
Definition set_mfac : Z -> Main -> Main := ltac:(field_setter mfac).
Definition set_rfig : option Obj -> Main -> Main := ltac:(field_setter rfig).
Definition set_rax : option Obj -> Main -> Main := ltac:(field_setter rax).
Definition set_seg_ax : option Obj -> Main -> Main := ltac:(field_setter seg_ax).
Definition set_savefig : bool -> Main -> Main := ltac:(field_setter savefig).
Definition set_modes_all : option Obj -> Main -> Main := ltac:(field_setter modes_all).
Definition set_tw_org : option window -> Main -> Main := ltac:(field_setter tw_org).
Definition set_qwindow : option window -> Main -> Main := ltac:(field_setter qwindow).
Definition set_min_snr : option float -> Main -> Main := ltac:(field_setter min_snr).
Definition set_max_mf : option float -> Main -> Main := ltac:(field_setter max_mf).
Definition set_set_seg_fw : bool -> Main -> Main := ltac:(field_setter set_seg_fw).
Definition set_set_seg_tw : bool -> Main -> Main := ltac:(field_setter set_seg_tw).
Definition set_i : Z -> Main -> Main := ltac:(field_setter i).
Definition set_i_old : option Z -> Main -> Main := ltac:(field_setter i_old).
Definition set_j : Z -> Main -> Main := ltac:(field_setter j).
Definition set_cmt : option Obj -> Main -> Main := ltac:(field_setter cmt).
Definition set_inv : option Obj -> Main -> Main := ltac:(field_setter inv).
Definition set_st : Stream -> Main -> Main := ltac:(field_setter st).
Definition set_st_work : Stream -> Main -> Main := ltac:(field_setter st_work).
Definition set_st_syn : list Stream -> Main -> Main := ltac:(field_setter st_syn).
Definition set_st_syn_work : list Stream -> Main -> Main := ltac:(field_setter st_syn_work).
Definition set_tr : option Trace -> Main -> Main := ltac:(field_setter tr).
Definition set_syn_trs : Stream -> Main -> Main := ltac:(field_setter syn_trs).
Definition set_spec : option Spec -> Main -> Main := ltac:(field_setter spec).
Definition set_startlabel : option Obj -> Main -> Main := ltac:(field_setter startlabel).
Definition set_endlabel : option Obj -> Main -> Main := ltac:(field_setter endlabel).

(** ** What the script calls but does not define *)

Class Collaborators : Type :=
  { (* frospy.spectrum.controllers *)
    load_cmt : option string -> option string -> bool -> Obj;
    read_data : string -> Main -> Main;
    load_segments : list string -> Segments;
    report_input : Main -> string;
    quit_spectrum : Main -> bool -> Main;
    timewindow : Trace -> window * window;
    freqwindow : window;
    search_stream : Main -> option string -> Main;
    (* the n-th dialogue with the user; None is the quit command *)
    process_input : nat -> option Pick -> Main -> option (option Pick * Main);
    (* frospy.core.spectrum.plot *)
    plot_spectrum : Main -> Main;
    (* frospy.core.Spectrum and its methods *)
    Spectrum : Trace -> float -> float -> Stream -> string ->
               option (list string) -> option string -> Spec;
    flabel : Spec -> float -> Obj;
    signal2noise : Spec -> Pick -> float * Z * bool;
    signal2fwhm : Spec -> Pick -> exn + float;
    misfit : Spec -> Pick -> list misfit_entry;
    spec_syn_names : Spec -> list string;
    (* frospy.util.base, frospy.core.modes *)
    inv4stream : Stream -> Obj;
    read_modes : Obj;
    (* the segment container and obspy's Stream *)
    segments_sort : list string -> Segments -> Segments;
    segments_select : Segments -> string -> Segments;
    stream_select : Stream -> string -> Stream;
    (* the % operator on numbers and objects *)
    fmt_f : float -> string;
    fmt_e : float -> string;
    fmt_3f : float -> string;
    fmt_1f : float -> string;
    str_trace : Trace -> string;
    str_stream : Stream -> string }.

Context {X : Collaborators}.

(** [del l[k]] for the index [k] of the current station; an index out of
    range leaves the list as it is. *)
Definition remove_at {A : Type} (l : list A) (k : Z) : list A :=
  let n := len l in
  let p := if 0 <=? k then k else n + k in
  if (0 <=? p) && (p <? n)
  then firstn (Z.to_nat p) l ++ skipn (S (Z.to_nat p)) l
  else l.

(** Modelled from the spec: [remove_station] of
    [frospy.spectrum.controllers], which this file imports and which is
    not part of the sources at hand.  It takes the current station, the
    trace at index [main.i], out of the working stream. *)
Definition remove_station (main : Main) (save_tmp : bool) : Main :=
  set_st_work (remove_at (st_work main) (i main)) main.

(** ** [set_defaults_init_main] *)

Definition set_defaults_init_main (main : Main) : Main :=
  let main := set_recalc true main in
  let main := set_weighting "integrate" main in
  let main := set_update_maps true main in
  let main := set_zoom_sl 5%float main in
  let main := match save_stream main with
              | None => set_save_stream (Some false) main
              | Some _ => main
              end in
  let main := set_fs (PyFloat 10%float) main in
  let main := set_noisewin false main in
  let main := set_overlap false main in
  let main := set_current_station None main in
  let main := set_segments None main in
  let main := set_rmf None main in
  let main := set_cmf None main in
  let main := set_mf None main in
  let main := set_mfac 1 main in
  let main := set_rfig None main in
  let main := set_rax None main in
  let main := set_seg_ax None main in
  let main := set_savefig false main in
  let main := set_fs (PyInt 10) main in
  let main := set_modes_all (Some read_modes) main in
  let main := if truthy_list (tw main)
              then set_tw_org (tw main) main
              else set_tw_org None main in
  let main := set_qwindow None main in
  let main := set_min_snr None main in
  let main := set_max_mf None main in
  let main := if seg_reference main
              then
                let main := set_set_seg_fw true main in
                let main := set_set_seg_tw true main in
                if truthy_list (fw main) then set_set_seg_fw false main
                else main
              else
                let main := set_set_seg_fw false main in
                set_set_seg_tw true main in
  let main := set_i 0 main in
  let main := set_i_old None main in
  let main := set_j 0 main in
  main.

(** ** The loop as commands over the state of a run *)

(** [w_pick] is the local variable [pick] of [run]; [w_out] what has been
    printed and called so far; [w_reads] how often the user was asked. *)
Record World : Type :=
  { w_main : Main; w_pick : option Pick; w_out : list event; w_reads : nat }.

Inductive Res (A : Type) : Type :=
| Ok (a : A) (w : World)
| Break (w : World)
| Continue (w : World)
| Raise (e : exn) (w : World).

Arguments Break {A} w.
Arguments Continue {A} w.
Arguments Raise {A} e w.

Definition Cmd (A : Type) : Type := World -> Res A.

Definition ret {A : Type} (a : A) : Cmd A := fun w => Ok a w.

Definition bind {A B : Type} (c : Cmd A) (k : A -> Cmd B) : Cmd B :=
  fun w =>
    match c w with
    | Ok a w' => k a w'
    | Break w' => Break w'
    | Continue w' => Continue w'
    | Raise e w' => Raise e w'
    end.

Notation "x <- c ;; k" := (bind c (fun x => k))
  (at level 61, c at next level, right associativity).
Notation "c ;; k" := (bind c (fun _ => k))
  (at level 61, right associativity).

Definition get : Cmd Main := fun w => Ok (w_main w) w.

Definition get_pick : Cmd (option Pick) := fun w => Ok (w_pick w) w.

(** The pure counterparts: a field of the world replaced. *)
Definition with_main (f : Main -> Main) (w : World) : World :=
  {| w_main := f (w_main w); w_pick := w_pick w;
     w_out := w_out w; w_reads := w_reads w |}.

Definition with_pick (p : option Pick) (w : World) : World :=
  {| w_main := w_main w; w_pick := p;
     w_out := w_out w; w_reads := w_reads w |}.

Definition log (e : event) (w : World) : World :=
  {| w_main := w_main w; w_pick := w_pick w;
     w_out := w_out w ++ [e]; w_reads := w_reads w |}.

Definition put (m : Main) : Cmd unit :=
  fun w => Ok tt (with_main (fun _ => m) w).

Definition update (f : Main -> Main) : Cmd unit :=
  fun w => Ok tt (with_main f w).

Definition set_pick (p : option Pick) : Cmd unit :=
  fun w => Ok tt (with_pick p w).

Definition emit (e : event) : Cmd unit :=
  fun w => Ok tt (log e w).

Definition print (s : string) : Cmd unit := emit (Print s).

(** The next dialogue with the user: its number, counted and logged. *)
Definition ask : Cmd nat :=
  fun w => Ok (w_reads w)
              {| w_main := w_main w; w_pick := w_pick w;
                 w_out := w_out w ++ [ProcessInput (w_reads w)];
                 w_reads := S (w_reads w) |}.

Definition break_ {A : Type} : Cmd A := fun w => Break w.
Definition continue_ {A : Type} : Cmd A := fun w => Continue w.
Definition raise {A : Type} (e : exn) : Cmd A := fun w => Raise e w.

Definition when (b : bool) (c : Cmd unit) : Cmd unit :=
  if b then c else ret tt.

(** [try: body except <class> as e: handler]: the handler runs in the
    state the exception left. *)
Definition try_except {A : Type} (body : Cmd A) (catches : exn -> bool)
    (handler : exn -> Cmd A) : Cmd A :=
  fun w =>
    match body w with
    | Raise e w' => if catches e then handler e w' else Raise e w'
    | r => r
    end.

(** A call that returns or raises. *)
Definition call {A : Type} (r : exn + A) : Cmd A :=
  match r with
  | inr a => ret a
  | inl e => raise e
  end.

(** [l[k]] as a command. *)
Definition index {A : Type} (l : list A) (k : Z) : Cmd A :=
  match py_index l k with
  | Some a => ret a
  | None => raise index_error
  end.

Fixpoint for_each {A : Type} (l : list A) (body : A -> Cmd unit) : Cmd unit :=
  match l with
  | [] => ret tt
  | a :: l' => body a ;; for_each l' body
  end.

(** [main.tr] and [main.spec], once they are set. *)
Definition current_trace : Cmd Trace :=
  main <- get ;;
  match tr main with
  | Some t => ret t
  | None => raise (attribute_error "tr")
  end.

Definition current_spec : Cmd Spec :=
  main <- get ;;
  match spec main with
  | Some s => ret s
  | None => raise (attribute_error "spec")
  end.

(** ** The body of [while True] *)

Definition msg_end_of_scope : string :=
  (NL ++ ESC ++ "[6;30;42m" ++ NL ++ NL ++ "Reached end of search-scope,"
   ++ " going back to last station" ++ NL ++ ESC ++ "[0m")%string.

Definition msg_end_of_file : string :=
  (NL ++ ESC ++ "[6;30;42m" ++ NL ++ NL ++ "Reached end of file,"
   ++ " going back to start" ++ NL ++ ESC ++ "[0m")%string.

Definition msg_end_of_segments : string :=
  (NL ++ ESC ++ "[6;30;42m" ++ NL ++ NL ++ "Reached end of segments,"
   ++ " for this station. Going back to start" ++ NL ++ ESC ++ "[0m")%string.

(** Lines 109-132: no data, end of a search scope, end of the stream. *)
Definition scope_check : Cmd unit :=
  main <- get ;;
  if len (st_work main) =? 0 then
    print "No data" ;;
    update (fun m => quit_spectrum m false) ;;
    emit (QuitSpectrum false) ;;
    emit PltIoff ;;
    emit PltCloseAll ;;
    break_
  else
    match i_old main with
    | Some saved =>
        if len (st_work main) <=? i main then
          print msg_end_of_scope ;;
          update (set_st_work (st main)) ;;
          when (truthy_list (syn main))
               (update (set_st_syn_work (st_syn main))) ;;
          update (set_i saved) ;;
          update (set_i_old None)
        else ret tt
    | None =>
        if len (st_work main) <=? i main then
          print msg_end_of_file ;;
          update (set_i 0)
        else ret tt
    end.

(** Lines 135-136: the current trace and an empty synthetic stream. *)
Definition pick_current_data : Cmd unit :=
  main <- get ;;
  t <- index (st_work main) (i main) ;;
  update (set_tr (Some t)) ;;
  update (set_syn_trs []).

(** Lines 137-144: the segments are sorted and the segment index wraps. *)
Definition wrap_segment : Cmd unit :=
  main <- get ;;
  match segments main with
  | Some segs =>
      let sorted := segments_sort ["fw2"] segs in
      update (set_segments (Some sorted)) ;;
      t <- current_trace ;;
      let maxj := len (segments_select sorted (station (stats t))) in
      when ((maxj <=? j main) && negb (maxj =? 0))
           (print msg_end_of_segments ;;
            update (set_j 0))
  | None => ret tt
  end.

(** Lines 147-153: the synthetic traces of the current station. *)
Definition select_synthetics : Cmd unit :=
  main <- get ;;
  when (truthy_list (syn main))
       (if String.eqb (stream_order main) "same" then
          for_each (st_syn_work main)
            (fun s =>
               m <- get ;;
               x <- index s (i m) ;;
               update (set_syn_trs (syn_trs m ++ [x])))
        else
          for_each (st_syn_work main)
            (fun s =>
               m <- get ;;
               t <- current_trace ;;
               update (set_syn_trs
                         (syn_trs m ++ stream_select s (station (stats t)))))).

(** Lines 157-158. *)
Definition status_header (t : Trace) : string :=
  (ESC ++ "[94mCurrent station: " ++ station (stats t) ++ " "
   ++ channel (stats t) ++ NL ++ ESC ++ "[0m")%string.

(** Lines 172-175. *)
Definition segment_msg (p : Pick) : string :=
  ("Segment data: " ++ NL
   ++ "Frequencies:" ++ TAB ++ fmt_3f (fw1 p) ++ "-" ++ fmt_3f (fw2 p)
   ++ " mHz" ++ NL
   ++ "Timewindow:" ++ TAB ++ fmt_1f (tw1 p) ++ "-" ++ fmt_1f (tw2 p)
   ++ " h" ++ NL)%string.

(** Line 179-180. *)
Definition no_pick_msg (stat : string) : string :=
  ("No picked segments in file for " ++ stat ++ NL)%string.

(** Lines 163-180: the pick of the current station, and the windows it
    sets.  The result is the status message. *)
Definition apply_pick (status_msg : string) : Cmd string :=
  set_pick None ;;
  main <- get ;;
  match segments main with
  | Some segs =>
      try_except
        (t <- current_trace ;;
         let stat := station (stats t) in
         pick <- index (segments_select segs stat) (j main) ;;
         set_pick (Some pick) ;;
         when (set_seg_tw main)
              (update (set_tw (Some [tw1 pick; tw2 pick]))) ;;
         when (set_seg_fw main)
              (update (set_fw (Some [PrimFloat.sub (fw1 pick) 0.05%float;
                                     PrimFloat.add (fw2 pick) 0.05%float]))) ;;
         ret (status_msg ++ segment_msg pick)%string)
        is_IndexError
        (fun _ =>
           t <- current_trace ;;
           ret (status_msg ++ no_pick_msg (station (stats t)))%string)
  | None => ret status_msg
  end.

(** Line 197, with the two numbers [%i] rendered. *)
Definition qcycle_msg (from to : string) : string :=
  (ESC ++ "[93mTimewindow set by Q-cycle to " ++ from ++ "-" ++ to ++ " h"
   ++ ESC ++ "[0m" ++ NL)%string.

(** Lines 187-191: windows that are None get their defaults. *)
Definition default_windows : Cmd unit :=
  main <- get ;;
  t <- current_trace ;;
  when (negb (is_some (tw main)))
       (update (set_tw (Some (fst (timewindow t)))) ;;
        update (set_tw_org (Some (snd (timewindow t))))) ;;
  main <- get ;;
  when (negb (is_some (fw main)))
       (update (set_fw (Some freqwindow))).

(** Lines 193-199: a window of the Q-cycle becomes the time window. *)
Definition qcycle : Cmd unit :=
  main <- get ;;
  match qwindow main with
  | Some q =>
      update (set_tw (Some q)) ;;
      s <- index q 0 ;;
      e <- index q 1 ;;
      from <- call (fmt_i s) ;;
      to <- call (fmt_i e) ;;
      print (qcycle_msg from to) ;;
      update (set_qwindow None)
  | None => ret tt
  end.

(** Lines 201-203: the status message of a station that is not the
    current one. *)
Definition print_status (status_msg : string) : Cmd unit :=
  main <- get ;;
  t <- current_trace ;;
  match current_station main with
  | Some c =>
      if String.eqb (station (stats t)) c then ret tt
      else
        update (set_current_station (Some (station (stats t)))) ;;
        print status_msg
  | None =>
      update (set_current_station (Some (station (stats t)))) ;;
      print status_msg
  end.

(** Lines 183-203: verbose information, default windows, the window of
    the Q-cycle, and the status message of a new station. *)
Definition set_windows (status_msg : string) : Cmd unit :=
  main <- get ;;
  t <- current_trace ;;
  let status_msg :=
    if verbose main
    then (status_msg ++ "Data info:" ++ NL ++ str_trace t ++ NL
          ++ "Synthetics info:" ++ NL ++ str_stream (syn_trs main) ++ NL)%string
    else status_msg in
  default_windows ;;
  qcycle ;;
  print_status status_msg.

(** Lines 206-211: the Fourier transform of the current trace. *)
Definition fourier : Cmd unit :=
  main <- get ;;
  t <- current_trace ;;
  match tw main with
  | Some l =>
      t0 <- index l 0 ;;
      t1 <- index l 1 ;;
      let sp := Spectrum t t0 t1 (syn_trs main) (taper_shape main)
                         (syn_label main) (data_label main) in
      emit (NewSpectrum t t0 t1) ;;
      update (set_spec (Some sp)) ;;
      match fw main with
      | Some f =>
          f0 <- index f 0 ;;
          update (set_startlabel (Some (flabel sp f0))) ;;
          f1 <- index f 1 ;;
          update (set_endlabel (Some (flabel sp f1)))
      | None => raise type_error
      end
  | None => raise type_error
  end.

(** Line 216. *)
Definition snr_line (snr_t : float) : string :=
  ("SNR:" ++ TAB ++ TAB ++ fmt_f snr_t ++ NL)%string.

(** Lines 220-221. *)
Definition fwhm_lines (snr_t fwhm : float) : string :=
  ("SFWHMR:" ++ TAB ++ TAB ++ fmt_e fwhm ++ NL
   ++ "SNR * SFWHMR:" ++ TAB ++ fmt_e (PrimFloat.mul snr_t fwhm) ++ NL)%string.

(** Line 223. *)
Definition fwhm_failure (e : exn) : string :=
  ("SFWHMR: " ++ exn_text e ++ NL)%string.

(** Lines 225-227. *)
Definition overlap_msg (ol_err : bool) : string :=
  if ol_err
  then (ESC ++ "[91mFreq window overlaps with" ++ " noise window"
        ++ ESC ++ "[0m" ++ NL)%string
  else EmptyString.

(** Lines 229-232: one line per synthetic, its name and its misfit. *)
Definition misfit_lines (names : list string) (mfv : list misfit_entry)
    : string :=
  fold_left
    (fun acc nc => (acc ++ fst nc ++ TAB ++ fmt_f (snd (snd nc)) ++ NL)%string)
    (combine names mfv)
    (NL ++ "Misfits:" ++ NL)%string.

(** Lines 215-236: the statistics of the pick and their message, printed
    when the misfit changed.  The result is [(snr_t, mf)]. *)
Definition report_misfit (sp : Spec) (pick : Pick)
    : Cmd (float * list misfit_entry) :=
  let '(snr_t, _, ol_err) := signal2noise sp pick in
  let mf_msg := snr_line snr_t in
  mf_msg <- try_except
              (fwhm <- call (signal2fwhm sp pick) ;;
               ret (mf_msg ++ fwhm_lines snr_t fwhm)%string)
              is_Exception
              (fun e => ret (mf_msg ++ fwhm_failure e)%string) ;;
  let mfv := misfit sp pick in
  let mf_msg := (mf_msg ++ overlap_msg ol_err)%string in
  let mf_msg := (mf_msg ++ misfit_lines (spec_syn_names sp) mfv)%string in
  main <- get ;;
  when (mf_differs mfv (mf main))
       (update (set_mf (Some mfv)) ;;
        print mf_msg) ;;
  ret (snr_t, mfv).

(** Lines 240-241 and 245-246. *)
Definition drop_station : Cmd unit :=
  update (fun m => remove_station m false) ;;
  emit (RemoveStation false) ;;
  continue_.

(** Lines 238-246: stations below the SNR threshold or above the misfit
    threshold leave the working stream. *)
Definition apply_thresholds (snr_t : float) (mfv : list misfit_entry)
    : Cmd unit :=
  main <- get ;;
  match min_snr main with
  | Some lo =>
      when (truthy_float lo && PrimFloat.ltb snr_t lo) drop_station
  | None => ret tt
  end ;;
  main <- get ;;
  match max_mf main with
  | Some hi =>
      when (truthy_float hi)
           (c <- index mfv 0 ;;
            when (PrimFloat.ltb hi (snd c)) drop_station)
  | None => ret tt
  end.

(** Lines 214-246: misfit statistics of the pick, and the thresholds. *)
Definition misfit_stats : Cmd unit :=
  main <- get ;;
  pick <- get_pick ;;
  match pick, syn main with
  | Some p, Some _ =>
      sp <- current_spec ;;
      r <- report_misfit sp p ;;
      apply_thresholds (fst r) (snd r)
  | _, _ => ret tt
  end.

(** Lines 248-249. *)
Definition plot : Cmd unit :=
  main <- get ;;
  when (negb (nowindow main))
       (update plot_spectrum ;;
        emit PlotSpectrum).

(** Lines 156-203: the pick and the windows of the current trace. *)
Definition prepare : Cmd unit :=
  print (NL ++ "---------------------------")%string ;;
  t <- current_trace ;;
  main <- get ;;
  when (is_some (tw_org main)) (update (set_tw (tw_org main))) ;;
  status_msg <- apply_pick (status_header t) ;;
  set_windows status_msg.

(** Lines 156-211: the windows and the spectrum of the current trace. *)
Definition respectrum : Cmd unit :=
  prepare ;;
  fourier.

(** Lines 155-249, the branch [if main.recalc]. *)
Definition recalculate : Cmd unit :=
  respectrum ;;
  misfit_stats ;;
  plot.

(** Lines 251-263: the loop waits for the user. *)
Definition wait_input : Cmd unit :=
  update (set_recalc true) ;;
  update (set_savefig false) ;;
  main <- get ;;
  pick <- get_pick ;;
  n <- ask ;;
  match process_input n pick main with
  | None =>
      emit PltIoff ;;
      emit PltCloseAll ;;
      break_
  | Some (pick', main') =>
      set_pick pick' ;;
      put main'
  end.

(** Lines 109-153: the current station, its segment index and its
    synthetics. *)
Definition select_data : Cmd unit :=
  scope_check ;;
  pick_current_data ;;
  wrap_segment ;;
  select_synthetics.

(** Lines 109-249: all of an iteration before it waits for the user. *)
Definition compute : Cmd unit :=
  select_data ;;
  main <- get ;;
  when (recalc main) recalculate.

(** One pass through the body of [while True]. *)
Definition iteration : Cmd unit :=
  compute ;;
  wait_input.

(** ** [run] *)

(** Lines 85-106: the moment tensor, the segments and the data. *)
Definition read_files (data : string) : Cmd unit :=
  print "Reading files ..." ;;
  main <- get ;;
  (if truthy_str (cmt_file main)
   then update (set_cmt (Some (load_cmt (cmt_file main) None (verbose main))))
   else update (set_cmt (Some (load_cmt None (cmt_id main) (verbose main))))) ;;
  main <- get ;;
  match segment_file main with
  | Some f => update (set_segments (Some (load_segments [f])))
  | None => ret tt
  end ;;
  set_pick None ;;
  update (read_data data) ;;
  main <- get ;;
  update (set_inv (Some (inv4stream (st main)))) ;;
  main <- get ;;
  print (report_input main) ;;
  when (truthy_str (search main))
       (update (fun m => search_stream m (search m))).

(** Lines 82-106: everything before the loop. *)
Definition prelude (data : string) : Cmd unit :=
  update set_defaults_init_main ;;
  read_files data.

(** How a run ends, or where it stands when the fuel is spent. *)
Inductive Outcome : Type :=
| Returned (v : option Segments) (w : World)
| Raised (e : exn) (w : World)
| Running (w : World).

(** Lines 265-266: after the loop. *)
Definition finish (w : World) : Outcome :=
  let w' := log PltIoff w in
  Returned (segments (w_main w')) w'.

(** [while True], for at most [fuel] iterations. *)
Fixpoint loop (fuel : nat) (w : World) : Outcome :=
  match fuel with
  | O => Running w
  | S fuel' =>
      match iteration w with
      | Ok _ w' | Continue w' => loop fuel' w'
      | Break w' => finish w'
      | Raise e w' => Raised e w'
      end
  end.

(** [AttribDict(iargs)] before anything ran. *)
Definition start (iargs : Main) : World :=
  {| w_main := iargs; w_pick := None; w_out := []; w_reads := O |}.


End Spectrum_commandline.

Arguments Break {Obj Spec A} w.
Arguments Continue {Obj Spec A} w.
Arguments Raise {Obj Spec A} e w.


Notation "x <- c ;; k" := (bind c (fun x => k))
  (at level 61, c at next level, right associativity).
Notation "c ;; k" := (bind c (fun _ => k))
  (at level 61, right associativity).

(** * frospy/tests/todo/Su/plot_SF_ulvz.py: the points of the grid files

    Lines 121-137 of the script: for every grid file, the name is the last
    component of its path, the first line is a header, and every other
    line whose third field is 1 gives a point on the map, drawn in the
    style that belongs to the name of the file. *)

(** [s.split(sep)] for a separator of one character. *)
Fixpoint split_on (sep : ascii) (s : string) : list string :=
  match s with
  | EmptyString => [EmptyString]
  | String c s' =>
      if Ascii.eqb c sep then EmptyString :: split_on sep s'
      else
        match split_on sep s' with
        | h :: t => String c h :: t
        | [] => [String c EmptyString]
        end
  end.

(** [sep.join(l)]. *)
Fixpoint join (sep : ascii) (l : list string) : string :=
  match l with
  | [] => EmptyString
  | [a] => a
  | a :: l' => (a ++ String sep (join sep l'))%string
  end.

Fixpoint has_char (c : ascii) (s : string) : bool :=
  match s with
  | EmptyString => false
  | String c' s' => Ascii.eqb c' c || has_char c s'
  end.

(** Line 122: [name = f.split("/")[-1]]. *)
Definition name_of (f : string) : option string :=
  py_index (split_on "/"%char f) (-1).

(** One call of [ax.scatter]. *)
Record Scatter : Type :=
  { sc_x : float; sc_y : float; sc_color : string; sc_alpha : float;
    sc_s : float; sc_zorder : Z }.

(** Lines 130-135: colour, alpha and zorder by the name of the file. *)
Definition style_of (name : string) : option (string * float * Z) :=
  if String.eqb name "All.yes.grd.txt" then Some ("darkred", 0.75%float, 500)
  else if String.eqb name "All.may.grd.txt" then Some ("r", 0.65%float, 300)
  else if String.eqb name "All.no.grd.txt" then Some ("gray", 0.65%float, 200)
  else None.

Section Plot_SF_ulvz.

(** The built-ins and the map projection: [str.split()], [int], [float]
    and the call of the Basemap object. *)
Variables (str_split : string -> list string)
          (py_int : string -> exn + Z)
          (py_float : string -> exn + float)
          (basemap : float -> float -> float * float).

(** Lines 127-135 for one line of a file: the point it draws, if any, or
    the exception it raises. *)
Definition plot_line (name line : string) : exn + option Scatter :=
  let l := str_split line in
  match py_index l 2 with
  | None => inl index_error
  | Some flag =>
      match py_int flag with
      | inl e => inl e
      | inr v =>
          if v =? 1 then
            match py_index l 0 with
            | None => inl index_error
            | Some a =>
                match py_float a with
                | inl e => inl e
                | inr lon =>
                    match py_index l 1 with
                    | None => inl index_error
                    | Some b =>
                        match py_float b with
                        | inl e => inl e
                        | inr lat =>
                            let (x, y) := basemap lon lat in
                            match style_of name with
                            | Some (color, alpha, zorder) =>
                                inr (Some {| sc_x := x; sc_y := y;
                                             sc_color := color;
                                             sc_alpha := alpha;
                                             sc_s := 0.1%float;
                                             sc_zorder := zorder |})
                            | None => inr None
                            end
                        end
                    end
                end
            end
          else inr None
      end
  end.

(** Lines 126-135: the points drawn, in order, and the exception that
    stopped the script, if one did. *)
Fixpoint plot_lines (name : string) (lines : list string)
    : list Scatter * option exn :=
  match lines with
  | [] => ([], None)
  | line :: rest =>
      match plot_line name line with
      | inl e => ([], Some e)
      | inr drawn =>
          let (more, err) := plot_lines name rest in
          (match drawn with
           | Some sc => sc :: more
           | None => more
           end, err)
      end
  end.

(** Lines 122-135 for one file, given its path and the lines
    [f.read().splitlines()] gave: [lines[1::]] drops the header. *)
Definition plot_file (f : string) (lines : list string)
    : list Scatter * option exn :=
  match name_of f with
  | Some name => plot_lines name (tl lines)
  | None => ([], Some index_error)
  end.

(** Lines 121-135: all files, in the order [glob] gave them. *)
Fixpoint plot_files (files : list (string * list string))
    : list Scatter * option exn :=
  match files with
  | [] => ([], None)
  | (f, lines) :: rest =>
      match plot_file f lines with
      | (drawn, Some e) => (drawn, Some e)
      | (drawn, None) =>
          let (more, err) := plot_files rest in (drawn ++ more, err)
      end
  end.

End Plot_SF_ulvz.

(** * A concrete session

    Stand-ins for the collaborators, small enough to run the loop on: three
    stations, one synthetic stream, picks for the first two stations, and a
    user whose answers are scripted. *)

Module Demo.

Definition trace_of (name : string) : Trace :=
  {| stats := {| station := name; channel := "VHZ" |}; data := [] |}.

Definition stations : Stream :=
  [trace_of "AAK"; trace_of "BFO"; trace_of "CAN"].

Definition pick1 : Pick :=
  {| pick_station := "AAK"; fw1 := 1.5%float; fw2 := 1.75%float;
     tw1 := 3%float; tw2 := 60%float |}.

Definition pick2 : Pick :=
  {| pick_station := "AAK"; fw1 := 2.25%float; fw2 := 2.5%float;
     tw1 := 5%float; tw2 := 40%float |}.

Definition pick3 : Pick :=
  {| pick_station := "BFO"; fw1 := 1.5%float; fw2 := 1.75%float;
     tw1 := 3%float; tw2 := 60%float |}.

Definition picks : Segments := [pick1; pick2; pick3].

(** What the user answers to one dialogue. *)
Inductive key : Type :=
| Next
| Help
| MinSnr (x : float)
| Quit.

(** The Spectrum objects: the trace and the time window they were made of. *)
Definition spectrum : Type := (Trace * (float * float))%type.

Definition answer (k : key) (pick : option Pick) (main : Main unit spectrum)
    : option (option Pick * Main unit spectrum) :=
  match k with
  | Next => Some (pick, set_i (i main + 1) main)
  | Help => Some (pick, set_recalc false main)
  | MinSnr x => Some (pick, set_min_snr (Some x) main)
  | Quit => None
  end.

Definition of_station (name : string) (s : Stream) : Stream :=
  filter (fun t => String.eqb (station (stats t)) name) s.

Definition loaded (main : Main unit spectrum) : Main unit spectrum :=
  let main := set_st stations main in
  let main := set_st_work stations main in
  let main := set_st_syn [stations] main in
  set_st_syn_work [stations] main.

(** A search narrows the working streams to one station and keeps the
    index to come back to. *)
Definition searched (main : Main unit spectrum) (s : option string)
    : Main unit spectrum :=
  match s with
  | Some name =>
      let main := set_st_work (of_station name (st main)) main in
      let main := set_st_syn_work (map (of_station name) (st_syn main)) main in
      let main := set_i_old (Some (i main)) main in
      set_i 0 main
  | None => main
  end.

(** The collaborators of a session in which every spectrum has
    signal-to-noise ratio [snr], [signal2fwhm] gives [fwhm], the misfits
    are [mfv], and the user types [keys]. *)
Definition session (snr : float) (fwhm : exn + float)
    (mfv : list misfit_entry) (keys : list key)
    : Collaborators unit spectrum :=
  {| load_cmt := fun _ _ _ => tt;
     read_data := fun _ main => loaded main;
     load_segments := fun _ => picks;
     report_input := fun _ => "input";
     quit_spectrum := fun main _ => main;
     timewindow := fun _ => ([3%float; 60%float], [3%float; 60%float]);
     freqwindow := [0%float; 10%float];
     search_stream := searched;
     process_input := fun n => answer (nth n keys Quit);
     plot_spectrum := fun main => main;
     Spectrum := fun t t0 t1 _ _ _ _ => (t, (t0, t1));
     flabel := fun _ _ => tt;
     signal2noise := fun _ _ => (snr, 1, false);
     signal2fwhm := fun _ _ => fwhm;
     misfit := fun _ _ => mfv;
     spec_syn_names := fun _ => ["syn"];
     inv4stream := fun _ => tt;
     read_modes := tt;
     segments_sort := fun _ segs => segs;
     segments_select :=
       fun segs name => filter (fun p => String.eqb (pick_station p) name) segs;
     stream_select := fun s name => of_station name s;
     fmt_f := fun _ => "%f";
     fmt_e := fun _ => "%e";
     fmt_3f := fun _ => "%.3f";
     fmt_1f := fun _ => "%.1f";
     str_trace := fun t => station (stats t);
     str_stream := fun _ => "stream" |}.

(** The keyword arguments of the session; the fields [run] sets itself
    hold placeholders. *)
Definition iargs (segment_file search : option string)
    (syn : option (list string)) : Main unit spectrum :=
  {| cmt_file := None; cmt_id := Some "060994A"; verbose := false;
     segment_file := segment_file; search := search; syn := syn;
     syn_label := None; data_label := None;
     taper_shape := "hanning"; stream_order := "same";
     seg_reference := true; nowindow := false;
     save_stream := None; tw := None; fw := None;
     recalc := false; weighting := ""; update_maps := false;
     zoom_sl := 0%float; fs := PyInt 0; noisewin := false; overlap := false;
     current_station := None; segments := None;
     rmf := None; cmf := None; mf := None; mfac := 0;
     rfig := None; rax := None; seg_ax := None;
     savefig := false; modes_all := None; tw_org := None;
     qwindow := None; min_snr := None; max_mf := None;
     set_seg_fw := false; set_seg_tw := false;
     i := 0; i_old := None; j := 0;
     cmt := None; inv := None; st := []; st_work := []; st_syn := [];
     st_syn_work := []; tr := None; syn_trs := []; spec := None;
     startlabel := None; endlabel := None |}.

(** The state a command leaves, however it ends. *)
Definition after (c : Cmd unit spectrum unit) (w : World unit spectrum)
    : World unit spectrum :=
  match c w with
  | Ok _ w' | Break w' | Continue w' | Raise _ w' => w'
  end.

(** The state in which the loop starts, with a segment file and one
    synthetic data set. *)
Definition ready (X : Collaborators unit spectrum) (search : option string)
    : World unit spectrum :=
  after (prelude (X := X) "data.ahx")
        (start (iargs (Some "picks.dat") search (Some ["syn.ahx"]))).

(** The user sets a minimal signal-to-noise ratio of 2 where every
    station has ratio 1. *)
Definition filtering : Collaborators unit spectrum :=
  session 1%float (inr 2%float) [(0%float, 0.5%float)]
          [MinSnr 2%float; Next; Quit].

(** The user asks for help, which needs no recalculation. *)
Definition helping : Collaborators unit spectrum :=
  session 1%float (inr 2%float) [(0%float, 0.5%float)] [Help; Next; Quit].

(** The user steps through the stations; [signal2fwhm] fails. *)
Definition stepping : Collaborators unit spectrum :=
  session 1%float
          (inl {| exn_cls := OtherException; exn_text := "no peak" |})
          [(0%float, 0.5%float)] [Next; Next; Next; Quit].

(** The states below are evaluated once, here. *)

(** With the filter set, the second iteration starts here. *)
Definition filter_set : World unit spectrum :=
  Eval vm_compute in
    after (iteration (X := filtering)) (ready filtering None).

(** Its station selected, and the spectrum of the station made. *)
Definition filter_set_selected : World unit spectrum :=
  Eval vm_compute in after (select_data (X := filtering)) filter_set.

Definition filter_set_spectrum : World unit spectrum :=
  Eval vm_compute in after (respectrum (X := filtering)) filter_set_selected.

(** The first iteration of the session with the help starts here. *)
Definition help_start : World unit spectrum :=
  Eval vm_compute in ready helping None.

Definition help_start_selected : World unit spectrum :=
  Eval vm_compute in after (select_data (X := helping)) help_start.

Definition help_start_spectrum : World unit spectrum :=
  Eval vm_compute in after (respectrum (X := helping)) help_start_selected.

(** After the help, the second iteration starts here. *)
Definition helped : World unit spectrum :=
  Eval vm_compute in after (iteration (X := helping)) help_start.

Definition helped_selected : World unit spectrum :=
  Eval vm_compute in after (select_data (X := helping)) helped.

(** A search for BFO, and the filter set in its scope: the third
    iteration starts here, the one station of the scope removed. *)
Definition scope_emptied : World unit spectrum :=
  Eval vm_compute in
    after (iteration (X := filtering))
      (after (iteration (X := filtering)) (ready filtering (Some "BFO"))).

(** A search for BFO, and one step past its one station. *)
Definition scope_passed : World unit spectrum :=
  Eval vm_compute in
    after (iteration (X := stepping)) (ready stepping (Some "BFO")).

(** Three steps through the three stations. *)
Definition stream_passed : World unit spectrum :=
  Eval vm_compute in
    after (iteration (X := stepping))
      (after (iteration (X := stepping))
         (after (iteration (X := stepping)) (ready stepping None))).

(** Two steps: the current station is CAN, which has no pick. *)
Definition at_CAN : World unit spectrum :=
  Eval vm_compute in
    after (select_data (X := stepping))
      (after (iteration (X := stepping))
         (after (iteration (X := stepping)) (ready stepping None))).

(** The first station, selected. *)
Definition at_AAK : World unit spectrum :=
  Eval vm_compute in after (select_data (X := stepping)) (ready stepping None).

(** The first station, its spectrum made. *)
Definition at_AAK_spectrum : World unit spectrum :=
  Eval vm_compute in after (respectrum (X := stepping)) at_AAK.

(** The first station picked while the segment index is past its two
    segments. *)
Definition past_segments : World unit spectrum :=
  Eval vm_compute in
    after (scope_check (X := stepping) ;; pick_current_data)
          (with_main (set_j 2) (ready stepping None)).

(** The spectrum of the first station under its pick. *)
Definition spectrum_AAK : spectrum := (trace_of "AAK", (3%float, 60%float)).

(** The first iteration of the stepping session starts here. *)
Definition stepping_start : World unit spectrum :=
  Eval vm_compute in ready stepping None.

(** The state in which the stepping session returns. *)
Definition stepping_end : World unit spectrum :=
  Eval vm_compute in
    match loop (X := stepping) 5 stepping_start with
    | Returned _ w | Raised _ w | Running w => w
    end.

(** With the filter set, the second iteration ends here. *)
Definition filter_set_dropped : World unit spectrum :=
  Eval vm_compute in after (iteration (X := filtering)) filter_set.

(** One step back from the first station, and four. *)
Definition stepped_back : World unit spectrum :=
  Eval vm_compute in with_main (set_i (-1)) stepping_start.

Definition stepped_far_back : World unit spectrum :=
  Eval vm_compute in with_main (set_i (-4)) stepping_start.

(** The first station picked, its synthetics not yet. *)
Definition before_synthetics : World unit spectrum :=
  Eval vm_compute in
    after (scope_check (X := stepping) ;; pick_current_data ;;
           wrap_segment (X := stepping))
          stepping_start.

(** The same with a synthetic stream that has no trace. *)
Definition short_synthetics : World unit spectrum :=
  Eval vm_compute in with_main (set_st_syn_work [[]]) before_synthetics.

(** The first station, its misfit reported. *)
Definition at_AAK_reported : World unit spectrum :=
  Eval vm_compute in
    after (report_misfit (X := stepping) spectrum_AAK pick1 ;; ret tt)
          at_AAK_spectrum.

(** A session whose spectra have no synthetics to compare with, and the
    state of its first station with a maximal misfit set. *)
Definition no_misfit : Collaborators unit spectrum :=
  session 1%float (inr 2%float) [] [Quit].

Definition max_mf_set : World unit spectrum :=
  Eval vm_compute in
    with_main (set_max_mf (Some 0.5%float))
      (after (respectrum (X := no_misfit))
         (after (select_data (X := no_misfit)) (ready no_misfit None))).

(** The built-ins of the grid files, for lines of digits and blanks. *)
Definition digits (s : string) : exn + Z :=
  if String.eqb s "1" then inr 1
  else if String.eqb s "0" then inr 0
  else inl {| exn_cls := OtherException;
              exn_text := "invalid literal for int()" |}.

Definition blanks (s : string) : list string :=
  filter (fun part => negb (String.eqb part EmptyString))
         (split_on " "%char s).

Definition half (s : string) : exn + float := inr 0.5%float.

Definition flat (lon lat : float) : float * float := (lon, lat).

(** The user steps to the third station, which has no pick, and sets a
    minimal signal-to-noise ratio there: the fourth iteration recalculates
    the same station. *)
Definition staying : Collaborators unit spectrum :=
  session 1%float (inr 2%float) [(0%float, 0.5%float)]
          [Next; Next; MinSnr 2%float; Quit].

Definition at_CAN_again : World unit spectrum :=
  Eval vm_compute in
    after (select_data (X := staying))
      (after (iteration (X := staying))
         (after (iteration (X := staying))
            (after (iteration (X := staying)) (ready staying None)))).

(** A session without a segment file in which the user picks a segment
    in the first dialogue and quits in the second. *)
Definition picking : Collaborators unit spectrum :=
  let X := session 1%float (inr 2%float) [(0%float, 0.5%float)] [] in
  {| load_cmt := @load_cmt _ _ X;
     read_data := @read_data _ _ X;
     load_segments := @load_segments _ _ X;
     report_input := @report_input _ _ X;
     quit_spectrum := @quit_spectrum _ _ X;
     timewindow := @timewindow _ _ X;
     freqwindow := @freqwindow _ _ X;
     search_stream := @search_stream _ _ X;
     process_input :=
       fun n pick main =>
         match n with
         | O => Some (Some pick1, set_segments (Some [pick1]) main)
         | S _ => None
         end;
     plot_spectrum := @plot_spectrum _ _ X;
     Spectrum := @Spectrum _ _ X;
     flabel := @flabel _ _ X;
     signal2noise := @signal2noise _ _ X;
     signal2fwhm := @signal2fwhm _ _ X;
     misfit := @misfit _ _ X;
     spec_syn_names := @spec_syn_names _ _ X;
     inv4stream := @inv4stream _ _ X;
     read_modes := @read_modes _ _ X;
     segments_sort := @segments_sort _ _ X;
     segments_select := @segments_select _ _ X;
     stream_select := @stream_select _ _ X;
     fmt_f := @fmt_f _ _ X;
     fmt_e := @fmt_e _ _ X;
     fmt_3f := @fmt_3f _ _ X;
     fmt_1f := @fmt_1f _ _ X;
     str_trace := @str_trace _ _ X;
     str_stream := @str_stream _ _ X |}.

(** The first station with a window of the Q-cycle pending, one that can
    be printed and one whose first bound is NaN. *)
Definition qcycle_pending : World unit spectrum :=
  Eval vm_compute in
    with_main (set_qwindow (Some [2.5%float; 48.75%float])) at_AAK.


(** The first station of a run without a segment file that was called
    with [tw=[]]. *)
Definition empty_tw : World unit spectrum :=
  Eval vm_compute in
    after (select_data (X := stepping))
      (after (prelude (X := stepping) "data.ahx")
         (start (set_tw (Some []) (iargs None None (Some ["syn.ahx"]))))).

End Demo.

(** * Properties of the loop *)

Unset Implicit Arguments.
Unset Maximal Implicit Insertion.

Section Properties.

Context {Obj Spec : Type} {X : Collaborators Obj Spec}.

Implicit Types (w : World Obj Spec) (m : Main Obj Spec).

(** ** Lists and indices *)

Lemma len_nonneg {A : Type} (l : list A) : 0 <= len l.
Proof. unfold len. lia. Qed.

Lemma len_eqb_0 {A : Type} (l : list A) : (len l =? 0) = true <-> l = [].
Proof.
  unfold len. rewrite Z.eqb_eq. destruct l as [|a l]; cbn [List.length].
  - split; reflexivity.
  - split; [lia | discriminate].
Qed.

Lemma len_eqb_0_false {A : Type} {l : list A} :
  l <> [] -> (len l =? 0) = false.
Proof.
  intros Hne. destruct (len l =? 0) eqn:E; [|reflexivity].
  apply len_eqb_0 in E. contradiction.
Qed.

Lemma py_index_0 {A : Type} (l : list A) : py_index l 0 = hd_error l.
Proof. destruct l; reflexivity. Qed.

Lemma py_index_nonneg {A : Type} (l : list A) (k : Z) :
  0 <= k -> py_index l k = nth_error l (Z.to_nat k).
Proof.
  intros Hk. unfold py_index. apply Z.leb_le in Hk. rewrite Hk. reflexivity.
Qed.

Lemma nth_error_remove {A : Type} (l : list A) (n : nat) :
  (n < List.length l)%nat ->
  nth_error (firstn n l ++ skipn (S n) l) n = nth_error l (S n).
Proof.
  revert n. induction l as [|a l IH]; intros n Hn; cbn [List.length] in Hn.
  - lia.
  - destruct n as [|n].
    + reflexivity.
    + cbn [firstn skipn app nth_error]. apply IH. lia.
Qed.

(** After [del l[k]] the index [k] holds what followed. *)
Lemma py_index_remove_at {A : Type} (l : list A) (k : Z) :
  0 <= k -> py_index (remove_at l k) k = py_index l (k + 1).
Proof.
  intros Hk. rewrite !py_index_nonneg by lia.
  unfold remove_at, len. cbv zeta.
  assert (E : (0 <=? k) = true) by (apply Z.leb_le; exact Hk).
  rewrite !E. cbn [andb].
  destruct (k <? Z.of_nat (List.length l)) eqn:Hlt.
  - apply Z.ltb_lt in Hlt.
    rewrite nth_error_remove by lia.
    f_equal. lia.
  - apply Z.ltb_ge in Hlt.
    assert (H1 : nth_error l (Z.to_nat k) = None)
      by (apply nth_error_None; lia).
    assert (H2 : nth_error l (Z.to_nat (k + 1)) = None)
      by (apply nth_error_None; lia).
    rewrite H1, H2. reflexivity.
Qed.

(** ** Sequencing *)

Lemma bind_Ok {A B : Type} (c : Cmd Obj Spec A) (k : A -> Cmd Obj Spec B)
    w a w' :
  c w = Ok a w' -> bind c k w = k a w'.
Proof. intros E. unfold bind. rewrite E. reflexivity. Qed.

Lemma bind_Ok_inv {A B : Type} (c : Cmd Obj Spec A) (k : A -> Cmd Obj Spec B)
    w b w2 :
  bind c k w = Ok b w2 -> exists a w1, c w = Ok a w1 /\ k a w1 = Ok b w2.
Proof.
  unfold bind. destruct (c w) as [a w1| | |]; intros E; try discriminate.
  exists a, w1. split; [reflexivity | exact E].
Qed.

(** ** End of the stream *)

(** C2: in an iteration with a non-empty working stream, an index [i] at or
    past its end and no saved index, the loop prints that it reached the end
    of the file and sets [i] to 0; the trace it then picks is the first of the
    stream. *)
Theorem end_of_file_wraps_to_start w :
  st_work (w_main w) <> [] ->
  len (st_work (w_main w)) <= i (w_main w) ->
  i_old (w_main w) = None ->
  scope_check w = Ok tt (with_main (set_i 0) (log (Print msg_end_of_file) w))
  /\ exists w',
       (scope_check ;; pick_current_data) w = Ok tt w'
       /\ i (w_main w') = 0
       /\ tr (w_main w') = hd_error (st_work (w_main w)).
Proof.
  intros Hne Hge Hold.
  assert (Hs : scope_check w
               = Ok tt (with_main (set_i 0) (log (Print msg_end_of_file) w))).
  { unfold scope_check, bind, get.
    rewrite (len_eqb_0_false Hne), Hold.
    apply Z.leb_le in Hge. rewrite Hge. reflexivity. }
  split; [exact Hs|].
  erewrite bind_Ok by exact Hs.
  unfold pick_current_data, bind, get, index.
  cbn [w_main with_main log i set_i st_work].
  rewrite py_index_0.
  destruct (st_work (w_main w)) as [|t rest] eqn:E; [contradiction|].
  cbn. eexists. split; [reflexivity|]. cbn. split; reflexivity.
Qed.

(** C3, as the code has it: in an iteration with a non-empty working
    stream, an index [i] at or past its end and a saved index [i_old], the
    working stream becomes the full data stream, the synthetic working
    streams the full synthetic streams when [main.syn] is set and not empty,
    [i] the saved index, and [i_old] None. *)
Theorem end_of_scope_restores_stream w (saved : Z) :
  st_work (w_main w) <> [] ->
  len (st_work (w_main w)) <= i (w_main w) ->
  i_old (w_main w) = Some saved ->
  exists w',
    scope_check w = Ok tt w'
    /\ w_out w' = w_out w ++ [Print msg_end_of_scope]
    /\ st_work (w_main w') = st (w_main w)
    /\ st_syn_work (w_main w')
       = (if truthy_list (syn (w_main w))
          then st_syn (w_main w) else st_syn_work (w_main w))
    /\ i (w_main w') = saved
    /\ i_old (w_main w') = None.
Proof.
  intros Hne Hge Hold.
  unfold scope_check, bind, get.
  rewrite (len_eqb_0_false Hne), Hold.
  apply Z.leb_le in Hge. rewrite Hge.
  cbn [print emit update when ret with_main log w_main syn set_st_work].
  destruct (truthy_list (syn (w_main w))) eqn:Hsyn;
    cbn; rewrite ?Hsyn; eexists; split; try reflexivity; cbn; repeat split.
Qed.

(** ** What a command leaves as it is *)

(** [P] holds after the command, however it ends, when it held before. *)
Definition stable (P : World Obj Spec -> Prop) (A : Type)
    (c : Cmd Obj Spec A) : Prop :=
  forall w, P w ->
    match c w with
    | Ok _ w' | Break w' | Continue w' | Raise _ w' => P w'
    end.

Arguments stable P {A} c.

Section Stable.

Variable P : World Obj Spec -> Prop.

Lemma stable_ret (A : Type) (a : A) : stable P (ret a).
Proof. intros w H. exact H. Qed.

Lemma stable_get : stable P get.
Proof. intros w H. exact H. Qed.

Lemma stable_get_pick : stable P get_pick.
Proof. intros w H. exact H. Qed.

Lemma stable_break (A : Type) : stable P (break_ (A := A)).
Proof. intros w H. exact H. Qed.

Lemma stable_continue (A : Type) : stable P (continue_ (A := A)).
Proof. intros w H. exact H. Qed.

Lemma stable_raise (A : Type) (e : exn) : stable P (raise (A := A) e).
Proof. intros w H. exact H. Qed.

Lemma stable_bind (A B : Type) (c : Cmd Obj Spec A)
    (k : A -> Cmd Obj Spec B) :
  stable P c -> (forall a, stable P (k a)) -> stable P (bind c k).
Proof.
  intros Hc Hk w H. unfold bind. specialize (Hc w H).
  destruct (c w) as [a w'|w'|w'|e w']; try exact Hc.
  apply Hk. exact Hc.
Qed.

Lemma stable_update (f : Main Obj Spec -> Main Obj Spec) :
  (forall w, P w -> P (with_main f w)) -> stable P (update f).
Proof. intros Hf w H. apply Hf. exact H. Qed.

Lemma stable_put m :
  (forall w, P w -> P (with_main (fun _ => m) w)) -> stable P (put m).
Proof. intros Hf w H. apply Hf. exact H. Qed.

Lemma stable_set_pick (p : option Pick) :
  (forall w, P w -> P (with_pick p w)) -> stable P (set_pick p).
Proof. intros Hf w H. apply Hf. exact H. Qed.

Lemma stable_emit (e : event) :
  (forall w, P w -> P (log e w)) -> stable P (emit e).
Proof. intros Hf w H. apply Hf. exact H. Qed.

Lemma stable_print (s : string) :
  (forall w, P w -> P (log (Print s) w)) -> stable P (print s).
Proof. apply stable_emit. Qed.

Lemma stable_when (b : bool) (c : Cmd Obj Spec unit) :
  stable P c -> stable P (when b c).
Proof. intros Hc. destruct b; [exact Hc | apply stable_ret]. Qed.

Lemma stable_index {A : Type} (l : list A) (k : Z) : stable P (index l k).
Proof.
  unfold index. destruct (py_index l k); [apply stable_ret | apply stable_raise].
Qed.

Lemma stable_call (A : Type) (r : exn + A) : stable P (call r).
Proof. destruct r; [apply stable_raise | apply stable_ret]. Qed.

Lemma stable_current_trace : stable P current_trace.
Proof.
  apply stable_bind; [apply stable_get|]. intros m.
  destruct (tr m); [apply stable_ret | apply stable_raise].
Qed.

Lemma stable_current_spec : stable P current_spec.
Proof.
  apply stable_bind; [apply stable_get|]. intros m.
  destruct (spec m); [apply stable_ret | apply stable_raise].
Qed.

Lemma stable_for_each {A : Type} (l : list A) (body : A -> Cmd Obj Spec unit) :
  (forall a, stable P (body a)) -> stable P (for_each l body).
Proof.
  intros Hb. induction l as [|a l IH]; cbn [for_each].
  - apply stable_ret.
  - apply stable_bind; [apply Hb | intros _; exact IH].
Qed.

Lemma stable_try_except (A : Type) (body : Cmd Obj Spec A)
    (catches : exn -> bool) (handler : exn -> Cmd Obj Spec A) :
  stable P body -> (forall e, stable P (handler e)) ->
  stable P (try_except body catches handler).
Proof.
  intros Hb Hh w H. unfold try_except. specialize (Hb w H).
  destruct (body w) as [a w'|w'|w'|e w']; try exact Hb.
  destruct (catches e); [apply Hh; exact Hb | exact Hb].
Qed.

End Stable.

(** One step through the syntax of a command. *)
Ltac stable_step :=
  lazymatch goal with
  | |- stable _ (bind _ _) => apply stable_bind; [|intros ?]
  | |- stable _ (ret _) => apply stable_ret
  | |- stable _ get => apply stable_get
  | |- stable _ get_pick => apply stable_get_pick
  | |- stable _ break_ => apply stable_break
  | |- stable _ continue_ => apply stable_continue
  | |- stable _ (raise _) => apply stable_raise
  | |- stable _ (update _) => apply stable_update
  | |- stable _ (put _) => apply stable_put
  | |- stable _ (set_pick _) => apply stable_set_pick
  | |- stable _ (emit _) => apply stable_emit
  | |- stable _ (print _) => apply stable_print
  | |- stable _ (when _ _) => apply stable_when
  | |- stable _ (index _ _) => apply stable_index
  | |- stable _ (call _) => apply stable_call
  | |- stable _ current_trace => apply stable_current_trace
  | |- stable _ current_spec => apply stable_current_spec
  | |- stable _ (for_each _ _) => apply stable_for_each; intros ?
  | |- stable _ (try_except _ _ _) => apply stable_try_except; [|intros ?]
  | |- stable _ (match ?x with _ => _ end) => destruct x
  end.

(** The number of dialogues changes only where the loop asks. *)
Definition reads_are (n : nat) w : Prop := w_reads w = n.

Lemma compute_keeps_reads (n : nat) : stable (reads_are n) compute.
Proof.
  unfold compute, select_data, scope_check, pick_current_data, wrap_segment,
    select_synthetics, recalculate, respectrum, prepare, apply_pick,
    set_windows, default_windows, qcycle, print_status,
    fourier, misfit_stats, report_misfit, apply_thresholds, drop_station, plot.
  repeat stable_step; intros ? H; exact H.
Qed.

(** ** Segments of the current station *)

(** C6: with segments loaded and [maxj] of them picked for the current
    station, a segment index [j] at or past [maxj] goes back to 0 when
    [maxj] is not 0; with no segment for the station, and with [j] below
    [maxj], [j] stays. *)
Theorem segment_index_wraps w (segs : Segments) (t : Trace) :
  segments (w_main w) = Some segs ->
  tr (w_main w) = Some t ->
  let maxj :=
    len (segments_select (segments_sort ["fw2"%string] segs)
                         (station (stats t))) in
  exists w',
    wrap_segment w = Ok tt w'
    /\ (maxj <> 0 -> maxj <= j (w_main w) -> j (w_main w') = 0)
    /\ (maxj = 0 -> j (w_main w') = j (w_main w))
    /\ (j (w_main w) < maxj -> j (w_main w') = j (w_main w)).
Proof.
  intros Hsegs Htr maxj.
  unfold wrap_segment, bind, get. rewrite Hsegs.
  unfold current_trace, bind, get, update.
  cbn [with_main w_main tr set_segments]. rewrite Htr. cbn [ret j set_segments].
  fold maxj.
  destruct (maxj <=? j (w_main w)) eqn:Hle;
    destruct (maxj =? 0) eqn:Hz; cbn [andb negb when];
    [apply Z.leb_le in Hle | apply Z.leb_le in Hle
     | apply Z.leb_gt in Hle | apply Z.leb_gt in Hle ];
    [apply Z.eqb_eq in Hz | apply Z.eqb_neq in Hz
     | apply Z.eqb_eq in Hz | apply Z.eqb_neq in Hz ];
    eexists; (split; [reflexivity|]); cbn; repeat split; intros; lia.
Qed.

(** C9: a pick applied with [set_seg_fw] sets the frequency window to
    [[pick.fw1 - 0.05, pick.fw2 + 0.05]], and with [set_seg_tw] the time
    window to [[pick.tw1, pick.tw2]]; without the flag the window stays. *)
Theorem pick_sets_windows w (segs : Segments) (t : Trace) (p : Pick)
    (status : string) :
  segments (w_main w) = Some segs ->
  tr (w_main w) = Some t ->
  py_index (segments_select segs (station (stats t))) (j (w_main w)) = Some p ->
  exists w',
    apply_pick status w = Ok (status ++ segment_msg p)%string w'
    /\ w_pick w' = Some p
    /\ fw (w_main w')
       = (if set_seg_fw (w_main w)
          then Some [PrimFloat.sub (fw1 p) 0.05%float;
                     PrimFloat.add (fw2 p) 0.05%float]
          else fw (w_main w))
    /\ tw (w_main w')
       = (if set_seg_tw (w_main w)
          then Some [tw1 p; tw2 p]
          else tw (w_main w)).
Proof.
  intros Hsegs Htr Hp.
  unfold apply_pick, bind, get, set_pick.
  cbn [with_pick w_main]. rewrite Hsegs.
  unfold try_except, bind, current_trace, bind, get, index.
  cbn [w_main with_pick]. rewrite Htr. cbn [ret]. rewrite Hp. cbn [ret set_pick].
  destruct (set_seg_tw (w_main w)), (set_seg_fw (w_main w));
    cbn; eexists; (split; [reflexivity|]); cbn; repeat split.
Qed.

(** The first command of a sequence returned: go on with the rest. *)
Ltac bind_step tac :=
  etransitivity; [apply bind_Ok; tac | cbv beta].

Lemma current_trace_Ok w (t : Trace) :
  tr (w_main w) = Some t -> current_trace w = Ok t w.
Proof.
  intros H. unfold current_trace, bind, get. rewrite H. reflexivity.
Qed.

Lemma current_spec_Ok w (sp : Spec) :
  spec (w_main w) = Some sp -> current_spec w = Ok sp w.
Proof.
  intros H. unfold current_spec, bind, get. rewrite H. reflexivity.
Qed.

Lemma with_main_id w : with_main (fun m => m) w = w.
Proof. destruct w; reflexivity. Qed.

(** Lines 160-161. *)
Lemma reset_tw_Ok w :
  when (is_some (tw_org (w_main w))) (update (set_tw (tw_org (w_main w)))) w
  = Ok tt (with_main
             (fun m => if is_some (tw_org m) then set_tw (tw_org m) m else m) w).
Proof.
  unfold when, update, ret, with_main.
  destruct (is_some (tw_org (w_main w))); [reflexivity|].
  destruct w; reflexivity.
Qed.

(** ** The status message and the windows *)

(** Lines 183-185: what the status message becomes under [main.verbose]. *)
Definition full_status m (t : Trace) (status : string) : string :=
  if verbose m
  then (status ++ "Data info:" ++ NL ++ str_trace t ++ NL
        ++ "Synthetics info:" ++ NL ++ str_stream (syn_trs m) ++ NL)%string
  else status.

(** Entries 0 and 1 of a window, where both exist. *)
Definition bounds (l : window) : option (float * float) :=
  match py_index l 0, py_index l 1 with
  | Some a, Some b => Some (a, b)
  | _, _ => None
  end.

(** Lines 195-198: the message of the Q-cycle, or the exception raised on
    the way to it, by [main.tw[0]], by [main.tw[1]] or by [%i]. *)
Definition qcycle_text (q : window) : exn + string :=
  match py_index q 0, py_index q 1 with
  | Some s, Some e =>
      match fmt_i s, fmt_i e with
      | inr from, inr to => inr (qcycle_msg from to)
      | inl x, _ => inl x
      | inr _, inl x => inl x
      end
  | _, _ => inl index_error
  end.

Definition qcycle_prints (o : option window) : list event :=
  match o with
  | Some q =>
      match qcycle_text q with
      | inr msg => [Print msg]
      | inl _ => []
      end
  | None => []
  end.

(** Lines 187-191: windows that are None get their defaults. *)
Definition with_defaults (t : Trace) w : World Obj Spec :=
  with_main (fun m => if is_some (fw m) then m else set_fw (Some freqwindow) m)
    (with_main (fun m => if is_some (tw m) then m
                         else set_tw_org (Some (snd (timewindow t)))
                                (set_tw (Some (fst (timewindow t))) m)) w).

(** Line 201: the station is the one whose status was printed last. *)
Definition is_current (t : Trace) m : bool :=
  match current_station m with
  | Some c => String.eqb (station (stats t)) c
  | None => false
  end.

(** Lines 201-203: the status of a station that is not the current one. *)
Definition with_status (t : Trace) (s : string) w : World Obj Spec :=
  if is_current t (w_main w) then w
  else log (Print s)
         (with_main (set_current_station (Some (station (stats t)))) w).

Lemma default_windows_Ok w (t : Trace) :
  tr (w_main w) = Some t -> default_windows w = Ok tt (with_defaults t w).
Proof.
  intros Htr. destruct w as [m p o r]. cbn [w_main] in Htr.
  unfold default_windows, with_defaults.
  unfold bind at 1, get. unfold bind at 1, current_trace, bind at 1, get.
  cbn [w_main]. rewrite Htr. cbn [ret].
  unfold bind, update, get, when, ret, with_main. cbn [w_main].
  destruct (tw m) as [tw0|] eqn:Htw; cbn [is_some negb w_main fw set_tw set_tw_org];
    destruct (fw m) as [fw0|]; reflexivity.
Qed.

Lemma qcycle_eq w :
  qcycle w
  = match qwindow (w_main w) with
    | None => Ok tt w
    | Some q =>
        match qcycle_text q with
        | inr msg =>
            Ok tt (with_main (set_qwindow None)
                     (log (Print msg) (with_main (set_tw (Some q)) w)))
        | inl e => Raise e (with_main (set_tw (Some q)) w)
        end
    end.
Proof.
  unfold qcycle, qcycle_text. unfold bind at 1, get.
  destruct (qwindow (w_main w)) as [q|]; [|reflexivity].
  unfold bind, update, print, emit, index, call.
  destruct (py_index q 0) as [s|]; [|reflexivity]. cbn [ret].
  destruct (py_index q 1) as [e|]; [|reflexivity]. cbn [ret].
  destruct (fmt_i s) as [x|from]; [reflexivity|]. cbn [ret].
  destruct (fmt_i e) as [x|to]; reflexivity.
Qed.

Lemma print_status_Ok w (t : Trace) (s : string) :
  tr (w_main w) = Some t -> print_status s w = Ok tt (with_status t s w).
Proof.
  intros Htr. unfold print_status, with_status, is_current.
  unfold bind at 1, get. unfold bind at 1, current_trace, bind at 1, get.
  rewrite Htr. cbn [ret].
  destruct (current_station (w_main w)) as [c|];
    [destruct (String.eqb (station (stats t)) c)|]; reflexivity.
Qed.

Lemma with_defaults_keeps w (t : Trace) :
  tr (w_main (with_defaults t w)) = tr (w_main w)
  /\ qwindow (w_main (with_defaults t w)) = qwindow (w_main w)
  /\ current_station (w_main (with_defaults t w)) = current_station (w_main w)
  /\ w_pick (with_defaults t w) = w_pick w
  /\ w_out (with_defaults t w) = w_out w
  /\ w_reads (with_defaults t w) = w_reads w.
Proof.
  unfold with_defaults. cbn [with_main w_main w_pick w_out w_reads].
  destruct (is_some (tw (w_main w))); cbn [fw set_tw set_tw_org];
    destruct (is_some (fw (w_main w))); cbn; repeat split.
Qed.

(** Lines 183-203 on a state with a current trace. *)
Lemma set_windows_eq w (t : Trace) (status : string) :
  tr (w_main w) = Some t ->
  set_windows status w
  = match qwindow (w_main w) with
    | None =>
        Ok tt (with_status t (full_status (w_main w) t status)
                           (with_defaults t w))
    | Some q =>
        match qcycle_text q with
        | inr msg =>
            Ok tt (with_status t (full_status (w_main w) t status)
                     (with_main (set_qwindow None)
                        (log (Print msg)
                           (with_main (set_tw (Some q)) (with_defaults t w)))))
        | inl e => Raise e (with_main (set_tw (Some q)) (with_defaults t w))
        end
    end.
Proof.
  intros Htr.
  destruct (with_defaults_keeps w t) as (Htr1 & Hq1 & _).
  rewrite Htr in Htr1.
  unfold set_windows.
  bind_step reflexivity.
  bind_step ltac:(apply current_trace_Ok; exact Htr).
  fold (full_status (w_main w) t status).
  bind_step ltac:(apply default_windows_Ok; exact Htr).
  unfold bind at 1. rewrite qcycle_eq, Hq1.
  destruct (qwindow (w_main w)) as [q|].
  - destruct (qcycle_text q) as [e|msg]; [reflexivity|].
    apply print_status_Ok. exact Htr1.
  - apply print_status_Ok. exact Htr1.
Qed.

(** ** Stations without a pick *)

Definition no_pick w : Prop := w_pick w = None.

Lemma misfit_stats_no_pick w : no_pick w -> misfit_stats w = Ok tt w.
Proof.
  intros H. unfold misfit_stats, bind, get, get_pick. rewrite H. reflexivity.
Qed.

Lemma misfit_stats_no_syn w : syn (w_main w) = None -> misfit_stats w = Ok tt w.
Proof.
  intros H. unfold misfit_stats, bind, get, get_pick. rewrite H.
  destruct (w_pick w); reflexivity.
Qed.

Lemma spectrum_keeps_no_pick (status : string) :
  stable no_pick (set_windows status ;; fourier).
Proof.
  unfold set_windows, default_windows, qcycle, print_status, fourier.
  repeat stable_step; intros ? H; exact H.
Qed.

Lemma bind_assoc {A B C : Type} (c : Cmd Obj Spec A)
    (k : A -> Cmd Obj Spec B) (h : B -> Cmd Obj Spec C) w :
  bind (bind c k) h w = bind c (fun a => bind (k a) h) w.
Proof. unfold bind. destruct (c w); reflexivity. Qed.

Lemma bind_congr {A B : Type} (c c' : Cmd Obj Spec A)
    (k : A -> Cmd Obj Spec B) w w' :
  c w = c' w' -> bind c k w = bind c' k w'.
Proof. intros E. unfold bind. rewrite E. reflexivity. Qed.

(** After a command that leaves [pick] None, the statistics are a no-op. *)
Lemma skip_misfit (c : Cmd Obj Spec unit) w :
  stable no_pick c -> no_pick w ->
  bind c (fun _ => misfit_stats ;; plot) w = bind c (fun _ => plot) w.
Proof.
  intros Hc Hw. specialize (Hc w Hw). unfold bind at 1 3.
  destruct (c w) as [[] w1|w1|w1|e w1]; try reflexivity.
  unfold bind. rewrite (misfit_stats_no_pick w1 Hc). reflexivity.
Qed.

Lemma apply_pick_IndexError w (segs : Segments) (t : Trace) (status : string) :
  tr (w_main w) = Some t ->
  segments (w_main w) = Some segs ->
  py_index (segments_select segs (station (stats t))) (j (w_main w)) = None ->
  apply_pick status w
  = Ok (status ++ no_pick_msg (station (stats t)))%string (with_pick None w).
Proof.
  intros Htr Hsegs Hp.
  unfold apply_pick, bind, get, set_pick.
  cbn [with_pick w_main]. rewrite Hsegs.
  unfold try_except, bind, current_trace, bind, get, index.
  cbn [w_main with_pick]. rewrite Htr. cbn [ret]. rewrite Hp.
  cbn [raise is_IndexError index_error exn_cls w_main with_pick]. rewrite Htr.
  reflexivity.
Qed.

(** ** Misfit statistics *)

(** What lines 218-223 add to the message. *)
Definition fwhm_text (snr_t : float) (r : exn + float) : string :=
  match r with
  | inr fwhm => fwhm_lines snr_t fwhm
  | inl e => fwhm_failure e
  end.

(** The message of lines 216-232. *)
Definition misfit_msg (sp : Spec) (p : Pick) : string :=
  (((snr_line (fst (fst (signal2noise sp p)))
     ++ fwhm_text (fst (fst (signal2noise sp p))) (signal2fwhm sp p))
    ++ overlap_msg (snd (signal2noise sp p)))
   ++ misfit_lines (spec_syn_names sp) (misfit sp p))%string.

(** The state after lines 215-236. *)
Definition reported (sp : Spec) (p : Pick) w : World Obj Spec :=
  if mf_differs (misfit sp p) (mf (w_main w))
  then log (Print (misfit_msg sp p))
           (with_main (set_mf (Some (misfit sp p))) w)
  else w.

Lemma report_misfit_Ok w (sp : Spec) (p : Pick) :
  report_misfit sp p w
  = Ok (fst (fst (signal2noise sp p)), misfit sp p) (reported sp p w).
Proof.
  unfold report_misfit, reported, misfit_msg.
  destruct (signal2noise sp p) as [[snr_t nwins] ol_err]. cbn [fst snd].
  unfold bind, try_except, call.
  destruct (signal2fwhm sp p) as [e|fwhm];
    cbn [raise ret is_Exception fwhm_text get w_main];
    destruct (mf_differs (misfit sp p) (mf (w_main w))); reflexivity.
Qed.

Lemma misfit_stats_eq w (sp : Spec) (p : Pick) :
  w_pick w = Some p ->
  syn (w_main w) <> None ->
  spec (w_main w) = Some sp ->
  misfit_stats w
  = apply_thresholds (fst (fst (signal2noise sp p))) (misfit sp p)
                     (reported sp p w).
Proof.
  intros Hp Hsyn Hsp.
  unfold misfit_stats.
  bind_step reflexivity.
  bind_step reflexivity.
  cbn [w_main]. rewrite Hp.
  destruct (syn (w_main w)) as [names|]; [|contradiction].
  bind_step ltac:(apply current_spec_Ok; exact Hsp).
  bind_step ltac:(apply report_misfit_Ok).
  reflexivity.
Qed.


(** ** Thresholds *)

Lemma bind_Continue {A B : Type} (c : Cmd Obj Spec A)
    (k : A -> Cmd Obj Spec B) w w' :
  c w = Continue w' -> bind c k w = Continue w'.
Proof. intros E. unfold bind. rewrite E. reflexivity. Qed.

(** The state lines 240-241 and 245-246 leave. *)
Definition dropped w : World Obj Spec :=
  log (RemoveStation false) (with_main (fun m => remove_station m false) w).

(** The signal-to-noise ratio is below a threshold that is set. *)
Definition below_min_snr m (snr_t : float) : Prop :=
  exists lo,
    min_snr m = Some lo /\ truthy_float lo = true
    /\ PrimFloat.ltb snr_t lo = true.

(** The misfit of the first synthetic is above a threshold that is set. *)
Definition above_max_mf m (mfv : list misfit_entry) : Prop :=
  exists hi c rest,
    max_mf m = Some hi /\ truthy_float hi = true
    /\ mfv = c :: rest /\ PrimFloat.ltb hi (snd c) = true.

Lemma apply_thresholds_drops w (snr_t : float) (mfv : list misfit_entry) :
  below_min_snr (w_main w) snr_t \/ above_max_mf (w_main w) mfv ->
  apply_thresholds snr_t mfv w = Continue (dropped w).
Proof.
  intros [(lo & Hlo & Ht & Hlt) | (hi & c & rest & Hhi & Ht & Hmf & Hlt)];
    unfold apply_thresholds, bind, get.
  - rewrite Hlo, Ht, Hlt. reflexivity.
  - destruct (min_snr (w_main w)) as [lo|].
    + destruct (truthy_float lo && PrimFloat.ltb snr_t lo); cbn [when].
      * reflexivity.
      * cbn [ret]. rewrite Hhi, Ht. cbn [when]. subst mfv.
        unfold bind, index. cbn [py_index Z.leb Z.compare Z.to_nat nth_error ret].
        rewrite Hlt. reflexivity.
    + cbn [ret]. rewrite Hhi, Ht. cbn [when]. subst mfv.
      unfold bind, index. cbn [py_index Z.leb Z.compare Z.to_nat nth_error ret].
      rewrite Hlt. reflexivity.
Qed.

Lemma reported_main w (sp : Spec) (p : Pick) :
  min_snr (w_main (reported sp p w)) = min_snr (w_main w)
  /\ max_mf (w_main (reported sp p w)) = max_mf (w_main w)
  /\ st_work (w_main (reported sp p w)) = st_work (w_main w)
  /\ i (w_main (reported sp p w)) = i (w_main w).
Proof.
  unfold reported.
  destruct (mf_differs (misfit sp p) (mf (w_main w))); cbn; repeat split.
Qed.

(** C1: in an iteration that recalculates, has a pick for the current
    station and has [main.syn] not None, a signal-to-noise ratio below a
    set [main.min_snr], or a misfit of the first synthetic above a set
    [main.max_mf], makes the loop call [remove_station] and go straight to
    its next iteration: the current station is gone from the working
    stream, the index [i] is the same and so points at the station that
    followed, and the user was not asked. *)
Theorem filtered_station_is_removed w w1 w2 (p : Pick) (sp : Spec) :
  select_data w = Ok tt w1 ->
  recalc (w_main w1) = true ->
  respectrum w1 = Ok tt w2 ->
  w_pick w2 = Some p ->
  syn (w_main w2) <> None ->
  spec (w_main w2) = Some sp ->
  below_min_snr (w_main w2) (fst (fst (signal2noise sp p)))
  \/ above_max_mf (w_main w2) (misfit sp p) ->
  exists w',
    iteration w = Continue w'
    /\ st_work (w_main w') = remove_at (st_work (w_main w2)) (i (w_main w2))
    /\ i (w_main w') = i (w_main w2)
    /\ (0 <= i (w_main w2) ->
        py_index (st_work (w_main w')) (i (w_main w'))
        = py_index (st_work (w_main w2)) (i (w_main w2) + 1))
    /\ w_reads w' = w_reads w
    /\ (exists out, w_out w' = out ++ [RemoveStation false])
    /\ forall fuel, loop (S fuel) w = loop fuel w'.
Proof.
  intros Hsel Hrecalc Hresp Hp Hsyn Hsp Hcond.
  destruct (reported_main w2 sp p) as (Hmin & Hmax & Hst & Hi).
  set (wr := reported sp p w2) in *.
  assert (Hcompute : compute w = Continue (dropped wr)).
  { unfold compute.
    bind_step ltac:(exact Hsel).
    bind_step reflexivity.
    cbn [w_main]. rewrite Hrecalc. cbn [when].
    unfold recalculate.
    bind_step ltac:(exact Hresp).
    apply bind_Continue.
    rewrite (misfit_stats_eq w2 sp p Hp Hsyn Hsp).
    apply apply_thresholds_drops.
    unfold below_min_snr, above_max_mf. fold wr. rewrite Hmin, Hmax.
    exact Hcond. }
  assert (Hiter : iteration w = Continue (dropped wr)).
  { unfold iteration. apply bind_Continue. exact Hcompute. }
  exists (dropped wr).
  split; [exact Hiter|].
  assert (Hst' : st_work (w_main (dropped wr))
                 = remove_at (st_work (w_main w2)) (i (w_main w2))).
  { cbn. rewrite Hst, Hi. reflexivity. }
  assert (Hi' : i (w_main (dropped wr)) = i (w_main w2)).
  { cbn. exact Hi. }
  split; [exact Hst'|]. split; [exact Hi'|].
  split; [intros Hnn; rewrite Hst', Hi'; apply py_index_remove_at; exact Hnn|].
  split.
  { pose proof (compute_keeps_reads (w_reads w) w eq_refl) as Hreads.
    rewrite Hcompute in Hreads. exact Hreads. }
  split; [exists (w_out wr); reflexivity|].
  intros fuel. cbn [loop]. rewrite Hiter. reflexivity.
Qed.

(** ** Where the loop waits for the user *)

(** A command that reaches [continue] only through [drop_station]: the
    last thing it did was to remove the station. *)
Definition removal_last w : Prop :=
  exists out, w_out w = out ++ [RemoveStation false].

Definition continues_after_removal {A : Type} (c : Cmd Obj Spec A) : Prop :=
  forall w w', c w = Continue w' -> removal_last w'.

Lemma car_bind {A B : Type} (c : Cmd Obj Spec A) (k : A -> Cmd Obj Spec B) :
  continues_after_removal c -> (forall a, continues_after_removal (k a)) ->
  continues_after_removal (bind c k).
Proof.
  intros Hc Hk w w'. unfold bind.
  destruct (c w) as [a w1|w1|w1|e w1] eqn:E; intros H; try discriminate.
  - apply (Hk a w1 w' H).
  - injection H as <-. apply (Hc w w1 E).
Qed.

Lemma car_when (b : bool) (c : Cmd Obj Spec unit) :
  continues_after_removal c -> continues_after_removal (when b c).
Proof. intros Hc. destruct b; [exact Hc | intros w w' H; discriminate]. Qed.

Lemma car_index {A : Type} (l : list A) (k : Z) :
  continues_after_removal (index (Obj := Obj) (Spec := Spec) l k).
Proof. intros w w'. unfold index. destruct (py_index l k); discriminate. Qed.

Lemma car_call {A : Type} (r : exn + A) :
  continues_after_removal (call (Obj := Obj) (Spec := Spec) r).
Proof. intros w w'. destruct r; discriminate. Qed.

Lemma car_current_trace : continues_after_removal current_trace.
Proof.
  intros w w'. unfold current_trace, bind, get.
  destruct (tr (w_main w)); discriminate.
Qed.

Lemma car_current_spec : continues_after_removal current_spec.
Proof.
  intros w w'. unfold current_spec, bind, get.
  destruct (spec (w_main w)); discriminate.
Qed.

Lemma car_for_each {A : Type} (l : list A) (body : A -> Cmd Obj Spec unit) :
  (forall a, continues_after_removal (body a)) ->
  continues_after_removal (for_each l body).
Proof.
  intros Hb. induction l as [|a l IH]; cbn [for_each].
  - intros w w' H. discriminate.
  - apply car_bind; [apply Hb | intros _; exact IH].
Qed.

Lemma car_try_except {A : Type} (body : Cmd Obj Spec A)
    (catches : exn -> bool) (handler : exn -> Cmd Obj Spec A) :
  continues_after_removal body ->
  (forall e, continues_after_removal (handler e)) ->
  continues_after_removal (try_except body catches handler).
Proof.
  intros Hb Hh w w'. unfold try_except.
  destruct (body w) as [a w1|w1|w1|e w1] eqn:E; intros H; try discriminate.
  - injection H as <-. apply (Hb w w1 E).
  - destruct (catches e); [apply (Hh e w1 w' H) | discriminate].
Qed.

Lemma car_drop_station : continues_after_removal drop_station.
Proof.
  intros w w' H. injection H as <-.
  exists (w_out w). reflexivity.
Qed.

Ltac car_step :=
  lazymatch goal with
  | |- continues_after_removal drop_station => apply car_drop_station
  | |- continues_after_removal (bind _ _) => apply car_bind; [|intros ?]
  | |- continues_after_removal (when _ _) => apply car_when
  | |- continues_after_removal (index _ _) => apply car_index
  | |- continues_after_removal (call _) => apply car_call
  | |- continues_after_removal current_trace => apply car_current_trace
  | |- continues_after_removal current_spec => apply car_current_spec
  | |- continues_after_removal (for_each _ _) => apply car_for_each; intros ?
  | |- continues_after_removal (try_except _ _ _) =>
      apply car_try_except; [|intros ?]
  | |- continues_after_removal (match ?x with _ => _ end) => destruct x
  | |- continues_after_removal _ => intros ? ? ?; discriminate
  end.

Lemma compute_continues_after_removal : continues_after_removal compute.
Proof.
  unfold compute, select_data, scope_check, pick_current_data, wrap_segment,
    select_synthetics, recalculate, respectrum, prepare, apply_pick,
    set_windows, default_windows, qcycle, print_status,
    fourier, misfit_stats, report_misfit, apply_thresholds, plot.
  repeat car_step.
Qed.

Lemma wait_input_asks w :
  match wait_input w with
  | Ok _ w' =>
      w_reads w' = S (w_reads w)
      /\ w_out w' = w_out w ++ [ProcessInput (w_reads w)]
  | Break w' => w_reads w' = S (w_reads w)
  | Continue _ | Raise _ _ => False
  end.
Proof.
  unfold wait_input, bind, update, get, get_pick, ask.
  cbn [w_main w_pick w_reads w_out with_main].
  destruct (process_input _ _ _) as [[pick' main']|]; cbn; auto.
Qed.

(** C5, as the code has it: an iteration that ends normally has asked the
    user exactly once, as the last thing it did; an iteration that ends by
    [continue] has not asked: the last thing it did was to remove the
    station that failed a threshold.  The loop leaves either without having
    asked (no data) or on the user's answer (quit). *)
Theorem iteration_asks_unless_filtered w :
  match iteration w with
  | Ok _ w' =>
      w_reads w' = S (w_reads w)
      /\ exists out, w_out w' = out ++ [ProcessInput (w_reads w)]
  | Continue w' =>
      w_reads w' = w_reads w
      /\ exists out, w_out w' = out ++ [RemoveStation false]
  | Break w' =>
      w_reads w' = w_reads w \/ w_reads w' = S (w_reads w)
  | Raise _ _ => True
  end.
Proof.
  unfold iteration, bind.
  pose proof (compute_keeps_reads (w_reads w) w eq_refl) as Hreads.
  pose proof (compute_continues_after_removal w) as Hcont.
  destruct (compute w) as [[] w1|w1|w1|e w1].
  - pose proof (wait_input_asks w1) as Hask. unfold reads_are in Hreads.
    destruct (wait_input w1) as [[] w2|w2|w2|e w2].
    + destruct Hask as [H1 H2]. rewrite Hreads in H1, H2.
      split; [exact H1|]. exists (w_out w1). exact H2.
    + right. rewrite Hask, Hreads. reflexivity.
    + contradiction.
    + exact I.
  - left. exact Hreads.
  - split; [exact Hreads|]. apply (Hcont w1 eq_refl).
  - exact I.
Qed.

(** ** What an iteration recomputes *)

Definition is_new_spectrum (e : event) : bool :=
  match e with
  | NewSpectrum _ _ _ => true
  | _ => false
  end.

(** How many Spectrum objects have been constructed. *)
Definition spectra (out : list event) : nat :=
  List.length (filter is_new_spectrum out).

Lemma spectra_snoc (out : list event) (e : event) :
  spectra (out ++ [e])
  = (spectra out + if is_new_spectrum e then 1 else 0)%nat.
Proof.
  unfold spectra. rewrite filter_app, length_app. cbn [filter].
  destruct (is_new_spectrum e); reflexivity.
Qed.

Lemma stable_Ok (P : World Obj Spec -> Prop) {A : Type} (c : Cmd Obj Spec A)
    w (a : A) w' :
  stable P c -> P w -> c w = Ok a w' -> P w'.
Proof. intros Hc Hw E. specialize (Hc w Hw). rewrite E in Hc. exact Hc. Qed.

(** What lines 109-153 leave alone when they do not leave the loop. *)
Definition same_results (s : option Spec) (v : option (list misfit_entry))
    (n : nat) w : Prop :=
  spec (w_main w) = s /\ mf (w_main w) = v /\ spectra (w_out w) = n.

Ltac same_results_close :=
  unfold same_results;
  cbn [w_main w_out with_main with_pick log];
  rewrite ?spectra_snoc; cbn [is_new_spectrum]; rewrite ?Nat.add_0_r;
  repeat split; cbn; assumption.

Ltac same_results_side :=
  intros ? (H1 & H2 & H3); same_results_close.

Lemma scope_check_same_results (s : option Spec)
    (v : option (list misfit_entry)) (n : nat) w w' :
  same_results s v n w -> scope_check w = Ok tt w' -> same_results s v n w'.
Proof.
  intros H. revert w'. unfold scope_check, bind, get.
  destruct (len (st_work (w_main w)) =? 0); [intros w'; discriminate|].
  destruct (i_old (w_main w)) as [saved|];
    destruct (len (st_work (w_main w)) <=? i (w_main w));
    try destruct (truthy_list (syn (w_main w)));
    cbn; intros w' E; injection E as <-; destruct H as (H1 & H2 & H3);
    same_results_close.
Qed.

Lemma select_data_same_results (s : option Spec)
    (v : option (list misfit_entry)) (n : nat) w w' :
  same_results s v n w -> select_data w = Ok tt w' -> same_results s v n w'.
Proof.
  intros H E. unfold select_data in E.
  apply bind_Ok_inv in E. destruct E as ([] & wa & Ea & E).
  apply (scope_check_same_results s v n w wa H) in Ea.
  refine (stable_Ok (same_results s v n) _ wa tt w' _ Ea E).
  unfold pick_current_data, wrap_segment, select_synthetics.
  repeat stable_step; same_results_side.
Qed.

Lemma prepare_keeps_spectra (n : nat) :
  stable (fun w => spectra (w_out w) = n) prepare.
Proof.
  unfold prepare, apply_pick, set_windows, default_windows, qcycle,
    print_status.
  repeat stable_step;
    intros ? H; cbn [w_out with_main with_pick log];
    rewrite ?spectra_snoc; cbn [is_new_spectrum]; rewrite ?Nat.add_0_r;
    exact H.
Qed.

Lemma fourier_Ok_inv w w' :
  fourier w = Ok tt w' ->
  exists t l t0 t1,
    tr (w_main w') = Some t /\ tw (w_main w') = Some l
    /\ py_index l 0 = Some t0 /\ py_index l 1 = Some t1
    /\ spec (w_main w')
       = Some (Spectrum t t0 t1 (syn_trs (w_main w')) (taper_shape (w_main w'))
                        (syn_label (w_main w')) (data_label (w_main w')))
    /\ w_out w' = w_out w ++ [NewSpectrum t t0 t1].
Proof.
  unfold fourier, bind, get, current_trace, bind, get, index.
  destruct (tr (w_main w)) as [t|] eqn:Ht; [|discriminate]. cbn [ret].
  destruct (tw (w_main w)) as [l|] eqn:Htw; [|discriminate].
  destruct (py_index l 0) as [t0|] eqn:H0; [|discriminate]. cbn [ret].
  destruct (py_index l 1) as [t1|] eqn:H1; [|discriminate]. cbn [ret].
  cbn [emit update log with_main w_main fw set_spec].
  destruct (fw (w_main w)) as [f|]; [|discriminate].
  destruct (py_index f 0) as [f0|]; [|discriminate].
  cbn [ret update with_main w_main].
  destruct (py_index f 1) as [f1|]; [|discriminate].
  cbn. intros E. injection E as <-. cbn.
  exists t, l, t0, t1. rewrite Ht, Htw. repeat split; assumption.
Qed.

(** C8, as the code has it: an iteration recomputes only when
    [main.recalc] is set.  Then a new Spectrum is made of the current trace
    and time window, and the misfit statistics are computed against the
    pick when there is one and [main.syn] is not None; without a pick or
    synthetics they are skipped.  When [main.recalc] is not set the
    iteration goes to the user with the spectrum and the misfit it had.
    The time window is a list; the spectrum is made of its entries 0
    and 1. *)
Theorem recalc_gates_spectrum_and_misfit w w1 :
  select_data w = Ok tt w1 ->
  (recalc (w_main w1) = false ->
     compute w = Ok tt w1
     /\ spec (w_main w1) = spec (w_main w)
     /\ mf (w_main w1) = mf (w_main w)
     /\ spectra (w_out w1) = spectra (w_out w))
  /\ (recalc (w_main w1) = true ->
      forall w2, respectrum w1 = Ok tt w2 ->
        compute w = (misfit_stats ;; plot) w2
        /\ (exists t l t0 t1,
              tr (w_main w2) = Some t /\ tw (w_main w2) = Some l
              /\ py_index l 0 = Some t0 /\ py_index l 1 = Some t1
              /\ spec (w_main w2)
                 = Some (Spectrum t t0 t1 (syn_trs (w_main w2))
                                  (taper_shape (w_main w2))
                                  (syn_label (w_main w2))
                                  (data_label (w_main w2)))
              /\ exists out,
                   w_out w2 = out ++ [NewSpectrum t t0 t1]
                   /\ spectra out = spectra (w_out w))
        /\ (forall (p : Pick) (sp : Spec),
              w_pick w2 = Some p -> syn (w_main w2) <> None ->
              spec (w_main w2) = Some sp ->
              exists w3,
                report_misfit sp p w2
                = Ok (fst (fst (signal2noise sp p)), misfit sp p) w3
                /\ misfit_stats w2
                   = apply_thresholds (fst (fst (signal2noise sp p)))
                                      (misfit sp p) w3
                /\ (mf_differs (misfit sp p) (mf (w_main w2)) = true ->
                    mf (w_main w3) = Some (misfit sp p))
                /\ (mf_differs (misfit sp p) (mf (w_main w2)) = false ->
                    w3 = w2))
        /\ (w_pick w2 = None \/ syn (w_main w2) = None ->
            misfit_stats w2 = Ok tt w2)).
Proof.
  intros Hsel.
  assert (Hsame : same_results (spec (w_main w)) (mf (w_main w))
                               (spectra (w_out w)) w1).
  { apply (select_data_same_results _ _ _ w w1); [|exact Hsel].
    repeat split. }
  destruct Hsame as (Hspec & Hmf & Hn).
  split.
  - intros Hrecalc. split; [|repeat split; assumption].
    unfold compute.
    bind_step ltac:(exact Hsel).
    bind_step reflexivity.
    cbn [w_main]. rewrite Hrecalc. reflexivity.
  - intros Hrecalc w2 Hresp. split; [|split; [|split]].
    + unfold compute.
      bind_step ltac:(exact Hsel).
      bind_step reflexivity.
      cbn [w_main]. rewrite Hrecalc. cbn [when].
      unfold recalculate.
      bind_step ltac:(exact Hresp).
      reflexivity.
    + unfold respectrum in Hresp.
      apply bind_Ok_inv in Hresp. destruct Hresp as ([] & wp & Hprep & Hf).
      pose proof (stable_Ok _ _ w1 tt wp
                    (prepare_keeps_spectra (spectra (w_out w))) Hn Hprep) as Hwp.
      destruct (fourier_Ok_inv wp w2 Hf)
        as (t & l & t0 & t1 & Ht & Htw & H0 & H1 & Hsp & Hout).
      exists t, l, t0, t1. repeat split; try assumption.
      exists (w_out wp). split; assumption.
    + intros p sp Hp Hsyn Hsp.
      exists (reported sp p w2). split; [apply report_misfit_Ok|].
      split; [apply misfit_stats_eq; assumption|].
      unfold reported. split; intros Hd; rewrite Hd; reflexivity.
    + intros [Hp | Hsyn];
        [apply misfit_stats_no_pick | apply misfit_stats_no_syn]; assumption.
Qed.

(** ** What [run] returns *)















(** * Further properties of the loop *)

(** ** How a command leaves the loop body *)

Inductive exit_kind : Type :=
| ByBreak
| ByContinue.

Definition exit_of {A : Type} (k : exit_kind) (r : Res Obj Spec A)
    : option (World Obj Spec) :=
  match k, r with
  | ByBreak, Break w => Some w
  | ByContinue, Continue w => Some w
  | _, _ => None
  end.

(** Every [break] (or [continue]) of the command leaves a state in [Q]. *)
Definition exits (k : exit_kind) (Q : World Obj Spec -> Prop) {A : Type}
    (c : Cmd Obj Spec A) : Prop :=
  forall w w', exit_of k (c w) = Some w' -> Q w'.

Section Exits.

Variables (k : exit_kind) (Q : World Obj Spec -> Prop).

Lemma exits_bind {A B : Type} (c : Cmd Obj Spec A)
    (h : A -> Cmd Obj Spec B) :
  exits k Q c -> (forall a, exits k Q (h a)) -> exits k Q (bind c h).
Proof.
  intros Hc Hh w w'. unfold bind.
  destruct (c w) as [a w1|w1|w1|e w1] eqn:E; intros H.
  - apply (Hh a w1 w' H).
  - apply (Hc w w'). rewrite E. exact H.
  - apply (Hc w w'). rewrite E. exact H.
  - destruct k; discriminate.
Qed.

Lemma exits_when (b : bool) (c : Cmd Obj Spec unit) :
  exits k Q c -> exits k Q (when b c).
Proof.
  intros Hc. destruct b; [exact Hc|]. intros w w' H. destruct k; discriminate.
Qed.

Lemma exits_index {A : Type} (l : list A) (n : Z) :
  exits k Q (index (Obj := Obj) (Spec := Spec) l n).
Proof.
  intros w w'. unfold index.
  destruct (py_index l n); destruct k; discriminate.
Qed.

Lemma exits_call {A : Type} (r : exn + A) :
  exits k Q (call (Obj := Obj) (Spec := Spec) r).
Proof. intros w w'. destruct r; destruct k; discriminate. Qed.

Lemma exits_current_trace : exits k Q current_trace.
Proof.
  intros w w'. unfold current_trace, bind, get.
  destruct (tr (w_main w)); destruct k; discriminate.
Qed.

Lemma exits_current_spec : exits k Q current_spec.
Proof.
  intros w w'. unfold current_spec, bind, get.
  destruct (spec (w_main w)); destruct k; discriminate.
Qed.

Lemma exits_for_each {A : Type} (l : list A) (body : A -> Cmd Obj Spec unit) :
  (forall a, exits k Q (body a)) -> exits k Q (for_each l body).
Proof.
  intros Hb. induction l as [|a l IH]; cbn [for_each].
  - intros w w' H. destruct k; discriminate.
  - apply exits_bind; [apply Hb | intros _; exact IH].
Qed.

Lemma exits_try_except {A : Type} (body : Cmd Obj Spec A)
    (catches : exn -> bool) (handler : exn -> Cmd Obj Spec A) :
  exits k Q body -> (forall e, exits k Q (handler e)) ->
  exits k Q (try_except body catches handler).
Proof.
  intros Hb Hh w w'. unfold try_except.
  destruct (body w) as [a w1|w1|w1|e w1] eqn:E; intros H.
  - destruct k; discriminate.
  - apply (Hb w w'). rewrite E. exact H.
  - apply (Hb w w'). rewrite E. exact H.
  - destruct (catches e); [apply (Hh e w1 w' H) | destruct k; discriminate].
Qed.

End Exits.

Ltac exits_step :=
  lazymatch goal with
  | |- exits _ _ (bind _ _) => apply exits_bind; [|intros ?]
  | |- exits _ _ (when _ _) => apply exits_when
  | |- exits _ _ (index _ _) => apply exits_index
  | |- exits _ _ (call _) => apply exits_call
  | |- exits _ _ current_trace => apply exits_current_trace
  | |- exits _ _ current_spec => apply exits_current_spec
  | |- exits _ _ (for_each _ _) => apply exits_for_each; intros ?
  | |- exits _ _ (try_except _ _ _) => apply exits_try_except; [|intros ?]
  | |- exits _ _ (match ?x with _ => _ end) => destruct x
  | |- exits _ _ _ => intros ? ? ?; discriminate
  end.

Definition never (w : World Obj Spec) : Prop := False.

(** Only the no-data branch and the quit command leave the loop. *)
Lemma after_scope_never_breaks :
  exits ByBreak never
        (pick_current_data ;; wrap_segment ;; select_synthetics ;;
         main <- get ;; when (recalc main) recalculate).
Proof.
  unfold pick_current_data, wrap_segment, select_synthetics, recalculate,
    respectrum, prepare, apply_pick, set_windows, default_windows, qcycle,
    print_status, fourier, misfit_stats,
    report_misfit, apply_thresholds, drop_station, plot.
  repeat exits_step.
Qed.

Lemma scope_check_Break_inv w w' :
  scope_check w = Break w' ->
  st_work (w_main w) = []
  /\ w' = log PltCloseAll (log PltIoff (log (QuitSpectrum false)
            (with_main (fun m => quit_spectrum m false)
               (log (Print "No data") w)))).
Proof.
  unfold scope_check, bind, get.
  destruct (len (st_work (w_main w)) =? 0) eqn:E.
  - intros H. injection H as <-. split; [|reflexivity].
    apply len_eqb_0. exact E.
  - destruct (i_old (w_main w));
      destruct (len (st_work (w_main w)) <=? i (w_main w));
      try destruct (truthy_list (syn (w_main w))); discriminate.
Qed.

Lemma wait_input_Break_inv w w' :
  wait_input w = Break w' ->
  process_input (w_reads w) (w_pick w)
                (set_savefig false (set_recalc true (w_main w))) = None
  /\ w_out w' = w_out w ++ [ProcessInput (w_reads w); PltIoff; PltCloseAll]
  /\ w_main w' = set_savefig false (set_recalc true (w_main w)).
Proof.
  unfold wait_input, bind, update, get, get_pick, ask.
  cbn [w_main w_pick w_reads w_out with_main].
  destruct (process_input _ _ _) as [[pick' main']|]; cbn.
  - discriminate.
  - intros H. injection H as <-. cbn [w_out w_main].
    split; [reflexivity|]. split; [|reflexivity].
    cbn [w_out log]. rewrite <- !app_assoc. reflexivity.
Qed.

Lemma bind_congr_k {A B : Type} (c : Cmd Obj Spec A)
    (h h' : A -> Cmd Obj Spec B) w :
  (forall a w1, h a w1 = h' a w1) -> bind c h w = bind c h' w.
Proof.
  intros H. unfold bind. destruct (c w); try reflexivity. apply H.
Qed.

Lemma compute_assoc w :
  compute w
  = (scope_check ;;
     (pick_current_data ;; wrap_segment ;; select_synthetics ;;
      main <- get ;; when (recalc main) recalculate)) w.
Proof.
  unfold compute, select_data.
  rewrite bind_assoc. apply bind_congr_k. intros [] w1.
  rewrite bind_assoc. apply bind_congr_k. intros [] w2.
  rewrite bind_assoc. reflexivity.
Qed.

Lemma iteration_Break_inv w w' :
  iteration w = Break w' ->
  (st_work (w_main w) = []
   /\ w_out w' = w_out w ++ [Print "No data"; QuitSpectrum false;
                              PltIoff; PltCloseAll]
   /\ w_reads w' = w_reads w)
  \/ (exists w1,
         compute w = Ok tt w1
         /\ w_out w' = w_out w1 ++ [ProcessInput (w_reads w); PltIoff;
                                    PltCloseAll]
         /\ w_reads w' = S (w_reads w)).
Proof.
  unfold iteration. unfold bind at 1.
  destruct (compute w) as [[] w1|w1|w1|e w1] eqn:E; try discriminate.
  - intros H. right. exists w1. split; [reflexivity|].
    pose proof (compute_keeps_reads (w_reads w) w eq_refl) as Hr.
    rewrite E in Hr. unfold reads_are in Hr.
    pose proof (wait_input_asks w1) as Hask. rewrite H in Hask.
    destruct (wait_input_Break_inv w1 w' H) as (_ & Hout & _).
    rewrite Hout, Hask, Hr. split; reflexivity.
  - intros H. injection H as <-. left.
    rewrite compute_assoc in E. unfold bind at 1 in E.
    destruct (scope_check w) as [[] wa|wa|wa|e wa] eqn:Es; try discriminate.
    + exfalso. apply (after_scope_never_breaks wa w1). rewrite E. reflexivity.
    + injection E as <-.
      destruct (scope_check_Break_inv w wa Es) as [Hempty ->].
      split; [exact Hempty|]. cbn. rewrite <- !app_assoc. split; reflexivity.
Qed.

(** X1: whenever the loop is left, the figures were closed first: what
    [run] did last is [plt.ioff()], [plt.close('all')], [plt.ioff()], after
    either [quit_spectrum] (no data) or a dialogue with the user (quit). *)
Theorem loop_returns_after_closing (fuel : nat) w (v : option Segments) w' :
  loop fuel w = Returned v w' ->
  (exists out,
      w_out w' = out ++ [Print "No data"; QuitSpectrum false;
                         PltIoff; PltCloseAll; PltIoff])
  \/ (exists out n,
         w_out w' = out ++ [ProcessInput n; PltIoff; PltCloseAll; PltIoff]).
Proof.
  revert w. induction fuel as [|fuel IH]; intros w; cbn [loop].
  - discriminate.
  - destruct (iteration w) as [[] w1|w1|w1|e w1] eqn:E.
    + apply IH.
    + unfold finish. intros H. injection H as _ <-. cbn [w_out log].
      destruct (iteration_Break_inv w w1 E)
        as [(_ & Hout & _) | (w2 & _ & Hout & _)]; rewrite Hout.
      * left. exists (w_out w). rewrite <- app_assoc. reflexivity.
      * right. exists (w_out w2), (w_reads w).
        rewrite <- app_assoc. reflexivity.
    + apply IH.
    + discriminate.
Qed.

(** ** When a station is removed *)

Lemma never_elim {A : Type} (k : exit_kind) (c : Cmd Obj Spec A) w w' :
  exits k never c -> exit_of k (c w) = Some w' -> False.
Proof. intros Hc H. exact (Hc w w' H). Qed.

Lemma select_data_never_continues : exits ByContinue never select_data.
Proof.
  unfold select_data, scope_check, pick_current_data, wrap_segment,
    select_synthetics.
  repeat exits_step.
Qed.

Lemma respectrum_never_continues : exits ByContinue never respectrum.
Proof.
  unfold respectrum, prepare, apply_pick, set_windows, default_windows,
    qcycle, print_status, fourier.
  repeat exits_step.
Qed.

Lemma plot_never_continues : exits ByContinue never plot.
Proof. unfold plot. repeat exits_step. Qed.

Lemma apply_thresholds_Continue_inv w w' (snr_t : float)
    (mfv : list misfit_entry) :
  apply_thresholds snr_t mfv w = Continue w' ->
  (below_min_snr (w_main w) snr_t \/ above_max_mf (w_main w) mfv)
  /\ w' = dropped w.
Proof.
  unfold apply_thresholds, bind, get.
  destruct (min_snr (w_main w)) as [lo|] eqn:Hlo.
  - destruct (truthy_float lo) eqn:Ht, (PrimFloat.ltb snr_t lo) eqn:Hlt;
      cbn [andb when].
    + intros H. injection H as <-. split; [|reflexivity].
      left. exists lo. repeat split; assumption.
    + cbn [ret]. destruct (max_mf (w_main w)) as [hi|] eqn:Hhi; [|discriminate].
      destruct (truthy_float hi) eqn:Hth; cbn [when]; [|discriminate].
      unfold bind, index. destruct mfv as [|c rest]; [discriminate|].
      cbn [py_index Z.leb Z.compare Z.to_nat nth_error ret].
      destruct (PrimFloat.ltb hi (snd c)) eqn:Hgt; cbn [when]; [|discriminate].
      intros H. injection H as <-. split; [|reflexivity].
      right. exists hi, c, rest. repeat split; assumption.
    + cbn [ret]. destruct (max_mf (w_main w)) as [hi|] eqn:Hhi; [|discriminate].
      destruct (truthy_float hi) eqn:Hth; cbn [when]; [|discriminate].
      unfold bind, index. destruct mfv as [|c rest]; [discriminate|].
      cbn [py_index Z.leb Z.compare Z.to_nat nth_error ret].
      destruct (PrimFloat.ltb hi (snd c)) eqn:Hgt; cbn [when]; [|discriminate].
      intros H. injection H as <-. split; [|reflexivity].
      right. exists hi, c, rest. repeat split; assumption.
    + cbn [ret]. destruct (max_mf (w_main w)) as [hi|] eqn:Hhi; [|discriminate].
      destruct (truthy_float hi) eqn:Hth; cbn [when]; [|discriminate].
      unfold bind, index. destruct mfv as [|c rest]; [discriminate|].
      cbn [py_index Z.leb Z.compare Z.to_nat nth_error ret].
      destruct (PrimFloat.ltb hi (snd c)) eqn:Hgt; cbn [when]; [|discriminate].
      intros H. injection H as <-. split; [|reflexivity].
      right. exists hi, c, rest. repeat split; assumption.
  - cbn [ret]. destruct (max_mf (w_main w)) as [hi|] eqn:Hhi; [|discriminate].
    destruct (truthy_float hi) eqn:Hth; cbn [when]; [|discriminate].
    unfold bind, index. destruct mfv as [|c rest]; [discriminate|].
    cbn [py_index Z.leb Z.compare Z.to_nat nth_error ret].
    destruct (PrimFloat.ltb hi (snd c)) eqn:Hgt; cbn [when]; [|discriminate].
    intros H. injection H as <-. split; [|reflexivity].
    right. exists hi, c, rest. repeat split; assumption.
Qed.

Lemma misfit_stats_Continue_inv w w' :
  misfit_stats w = Continue w' ->
  exists (p : Pick) (sp : Spec),
    w_pick w = Some p /\ syn (w_main w) <> None /\ spec (w_main w) = Some sp
    /\ (below_min_snr (w_main (reported sp p w))
                      (fst (fst (signal2noise sp p)))
        \/ above_max_mf (w_main (reported sp p w)) (misfit sp p))
    /\ w' = dropped (reported sp p w).
Proof.
  intros H.
  destruct (w_pick w) as [p|] eqn:Hp;
    [|rewrite (misfit_stats_no_pick w Hp) in H; discriminate].
  destruct (syn (w_main w)) as [names|] eqn:Hsyn;
    [|rewrite (misfit_stats_no_syn w Hsyn) in H; discriminate].
  destruct (spec (w_main w)) as [sp|] eqn:Hsp.
  - assert (Hne : syn (w_main w) <> None) by (rewrite Hsyn; discriminate).
    rewrite (misfit_stats_eq w sp p Hp Hne Hsp) in H.
    apply apply_thresholds_Continue_inv in H. destruct H as [Hc ->].
    exists p, sp. repeat split; try assumption. discriminate.
  - exfalso. revert H. unfold misfit_stats, bind, get, get_pick.
    rewrite Hp, Hsyn. unfold current_spec, bind, get. rewrite Hsp.
    discriminate.
Qed.

Lemma bind_Continue_inv {A B : Type} (c : Cmd Obj Spec A)
    (h : A -> Cmd Obj Spec B) w w' :
  bind c h w = Continue w' ->
  c w = Continue w' \/ exists a w1, c w = Ok a w1 /\ h a w1 = Continue w'.
Proof.
  unfold bind. destruct (c w) as [a w1|w1|w1|e w1]; intros H;
    try discriminate.
  - right. exists a, w1. split; [reflexivity | exact H].
  - left. injection H as <-. reflexivity.
Qed.

Lemma iteration_Continue_inv w w' :
  iteration w = Continue w' ->
  exists w1 w2,
    select_data w = Ok tt w1 /\ recalc (w_main w1) = true
    /\ respectrum w1 = Ok tt w2 /\ misfit_stats w2 = Continue w'.
Proof.
  unfold iteration. intros H.
  apply bind_Continue_inv in H. destruct H as [H | ([] & wc & _ & H)].
  2:{ exfalso. pose proof (wait_input_asks wc) as Hask.
      rewrite H in Hask. exact Hask. }
  unfold compute in H.
  apply bind_Continue_inv in H. destruct H as [H | ([] & w1 & Hs & H)].
  { exfalso. apply (never_elim ByContinue select_data w w'
                      select_data_never_continues).
    rewrite H. reflexivity. }
  apply bind_Continue_inv in H. destruct H as [H | (m1 & w1' & Hg & H)].
  { discriminate H. }
  injection Hg as <- <-.
  destruct (recalc (w_main w1)) eqn:Hr; [|discriminate H].
  cbn [when] in H. unfold recalculate in H.
  apply bind_Continue_inv in H. destruct H as [H | ([] & w2 & Hre & H)].
  { exfalso. apply (never_elim ByContinue respectrum w1 w'
                      respectrum_never_continues).
    rewrite H. reflexivity. }
  apply bind_Continue_inv in H. destruct H as [H | ([] & w3 & _ & H)].
  - exists w1, w2. repeat split; assumption.
  - exfalso. apply (never_elim ByContinue plot w3 w' plot_never_continues).
    rewrite H. reflexivity.
Qed.

(** X2: the loop goes to its next iteration without asking only by
    removing a station, and it removes a station only in an iteration that
    recalculates, has a pick and [main.syn] not None, and finds the
    signal-to-noise ratio below a set [main.min_snr] or the first misfit
    above a set [main.max_mf]. *)
Theorem continue_only_past_threshold w w' :
  iteration w = Continue w' ->
  exists w1 w2 (p : Pick) (sp : Spec),
    select_data w = Ok tt w1 /\ recalc (w_main w1) = true
    /\ respectrum w1 = Ok tt w2
    /\ w_pick w2 = Some p /\ syn (w_main w2) <> None
    /\ spec (w_main w2) = Some sp
    /\ (below_min_snr (w_main w2) (fst (fst (signal2noise sp p)))
        \/ above_max_mf (w_main w2) (misfit sp p))
    /\ w' = dropped (reported sp p w2).
Proof.
  intros H.
  destruct (iteration_Continue_inv w w' H) as (w1 & w2 & Hs & Hr & Hre & Hm).
  destruct (misfit_stats_Continue_inv w2 w' Hm)
    as (p & sp & Hp & Hsyn & Hsp & Hc & ->).
  exists w1, w2, p, sp. repeat split; try assumption.
  destruct (reported_main w2 sp p) as (Hmin & Hmax & _ & _).
  unfold below_min_snr, above_max_mf in *. rewrite Hmin, Hmax in Hc. exact Hc.
Qed.

(** The thresholds are touched by no line of the loop body before the
    user is asked. *)
Definition thresholds_are (lo hi : option float) w : Prop :=
  min_snr (w_main w) = lo /\ max_mf (w_main w) = hi.

Lemma scope_check_keeps_thresholds (lo hi : option float) w w' :
  thresholds_are lo hi w -> scope_check w = Ok tt w' ->
  thresholds_are lo hi w'.
Proof.
  intros H. revert w'. unfold scope_check, bind, get.
  destruct (len (st_work (w_main w)) =? 0); [intros w'; discriminate|].
  destruct (i_old (w_main w)) as [saved|];
    destruct (len (st_work (w_main w)) <=? i (w_main w));
    try destruct (truthy_list (syn (w_main w)));
    cbn; intros w' E; injection E as <-; exact H.
Qed.

Lemma respectrum_keeps_thresholds (lo hi : option float) :
  stable (thresholds_are lo hi)
         (pick_current_data ;; wrap_segment ;; select_synthetics ;;
          main <- get ;; when (recalc main) respectrum).
Proof.
  unfold pick_current_data, wrap_segment, select_synthetics, respectrum,
    prepare, apply_pick, set_windows, default_windows, qcycle, print_status,
    fourier.
  repeat stable_step; intros ? H; exact H.
Qed.

(** X3: while neither threshold is set to a non-zero value (both are
    None when the loop starts, and a threshold of zero counts as not set),
    no iteration ends by [continue]: no station is removed, and every
    iteration that stays in the loop has asked the user. *)
Theorem no_threshold_no_removal w :
  truthy_num (min_snr (w_main w)) = false ->
  truthy_num (max_mf (w_main w)) = false ->
  exit_of ByContinue (iteration w) = None.
Proof.
  intros Hlo Hhi.
  destruct (iteration w) as [[] w'|w'|w'|e w'] eqn:E; try reflexivity.
  exfalso.
  destruct (continue_only_past_threshold w w' E)
    as (w1 & w2 & p & sp & Hs & Hr & Hre & _ & _ & _ & Hc & _).
  assert (Hth : thresholds_are (min_snr (w_main w)) (max_mf (w_main w)) w2).
  { unfold select_data in Hs.
    apply bind_Ok_inv in Hs. destruct Hs as ([] & wa & Ea & Hs).
    assert (Ha : thresholds_are (min_snr (w_main w)) (max_mf (w_main w)) wa)
      by (apply (scope_check_keeps_thresholds _ _ w wa);
          [split; reflexivity | exact Ea]).
    refine (stable_Ok (thresholds_are _ _) _ wa tt w2
              (respectrum_keeps_thresholds _ _) Ha _).
    apply bind_Ok_inv in Hs. destruct Hs as ([] & wb & Eb & Hs).
    apply bind_Ok_inv in Hs. destruct Hs as ([] & wc & Ec & Hs).
    bind_step ltac:(exact Eb).
    bind_step ltac:(exact Ec).
    bind_step ltac:(exact Hs).
    bind_step reflexivity.
    cbn [w_main]. rewrite Hr. exact Hre. }
  destruct Hth as [Hmin Hmax].
  destruct Hc as [(lo & Hl & Ht & _) | (hi & c & rest & Hh & Ht & _)].
  - rewrite Hmin in Hl. rewrite Hl in Hlo. cbn [truthy_num] in Hlo. congruence.
  - rewrite Hmax in Hh. rewrite Hh in Hhi. cbn [truthy_num] in Hhi. congruence.
Qed.

(** ** The station index *)

Lemma scope_check_in_range w :
  st_work (w_main w) <> [] ->
  i (w_main w) < len (st_work (w_main w)) ->
  scope_check w = Ok tt w.
Proof.
  intros Hne Hlt. unfold scope_check, bind, get.
  rewrite (len_eqb_0_false Hne).
  apply Z.leb_gt in Hlt. rewrite Hlt.
  destruct (i_old (w_main w)); reflexivity.
Qed.

(** X4: the end-of-stream check looks only at indices at or past the
    end.  A negative index [i] not below [-len(st_work)] passes it and
    picks the station counted from the end of the working stream; an index
    below [-len(st_work)] makes [main.st_work[main.i]] raise an IndexError,
    which nothing catches. *)
Theorem negative_station_index w :
  st_work (w_main w) <> [] ->
  i (w_main w) < 0 ->
  let n := len (st_work (w_main w)) in
  (- n <= i (w_main w) ->
     exists (t : Trace) w',
       (scope_check ;; pick_current_data) w = Ok tt w'
       /\ tr (w_main w') = Some t
       /\ nth_error (st_work (w_main w)) (Z.to_nat (n + i (w_main w))) = Some t
       /\ i (w_main w') = i (w_main w))
  /\ (i (w_main w) < - n ->
      (scope_check ;; pick_current_data) w = Raise index_error w).
Proof.
  intros Hne Hneg n.
  assert (Hn : 0 <= n) by apply len_nonneg.
  assert (Hs : scope_check w = Ok tt w)
    by (apply scope_check_in_range; [exact Hne | fold n; lia]).
  assert (H0 : (0 <=? i (w_main w)) = false) by (apply Z.leb_gt; exact Hneg).
  split.
  - intros Hge.
    destruct (nth_error (st_work (w_main w)) (Z.to_nat (n + i (w_main w))))
      as [t|] eqn:Ht.
    + exists t. eexists. split; [|split; [|split]].
      * bind_step ltac:(exact Hs).
        unfold pick_current_data.
        bind_step reflexivity.
        unfold index, py_index. cbn [w_main]. rewrite H0.
        fold (len (st_work (w_main w))). fold n.
        apply Z.leb_le in Hge. rewrite Hge. rewrite Ht.
        reflexivity.
      * reflexivity.
      * reflexivity.
      * reflexivity.
    + exfalso. apply nth_error_None in Ht. unfold n, len in *. lia.
  - intros Hlt.
    bind_step ltac:(exact Hs).
    unfold pick_current_data.
    bind_step reflexivity.
    unfold index, py_index. cbn [w_main]. rewrite H0.
    fold (len (st_work (w_main w))). fold n.
    apply Z.leb_gt in Hlt. rewrite Hlt. reflexivity.
Qed.

(** ** The synthetics of the current station *)

(** Only [main.syn_trs] differs between the two states. *)
Definition only_syn_trs_differs w w' : Prop :=
  set_syn_trs [] (w_main w') = set_syn_trs [] (w_main w)
  /\ w_pick w' = w_pick w /\ w_out w' = w_out w /\ w_reads w' = w_reads w.

Lemma take_same_order (l : list Stream) : forall w,
  Forall (fun s => py_index s (i (w_main w)) <> None) l ->
  exists w' (picked : Stream),
    for_each l
      (fun s =>
         m <- get ;;
         x <- index s (i m) ;;
         update (set_syn_trs (syn_trs m ++ [x]))) w = Ok tt w'
    /\ syn_trs (w_main w') = syn_trs (w_main w) ++ picked
    /\ map Some picked = map (fun s => py_index s (i (w_main w))) l
    /\ only_syn_trs_differs w w'.
Proof.
  induction l as [|s l IH]; intros w Hall.
  - exists w, []. cbn [for_each map]. rewrite app_nil_r.
    repeat split; reflexivity.
  - inversion Hall as [|s' l' Hs Hl]; subst.
    destruct (py_index s (i (w_main w))) as [x|] eqn:Ex; [|contradiction].
    set (w1 := with_main (set_syn_trs (syn_trs (w_main w) ++ [x])) w).
    destruct (IH w1 Hl) as (w' & picked & Hrun & Hsyn & Hmap & Hfr).
    exists w', (x :: picked). split; [|split; [|split]].
    + cbn [for_each].
      bind_step ltac:(unfold bind, get, index; rewrite Ex; reflexivity).
      exact Hrun.
    + rewrite Hsyn. cbn [w1 w_main with_main syn_trs set_syn_trs].
      rewrite <- app_assoc. reflexivity.
    + cbn [map]. rewrite Ex. f_equal. exact Hmap.
    + destruct Hfr as (H1 & H2 & H3 & H4).
      repeat split; [rewrite H1; reflexivity | exact H2 | exact H3 | exact H4].
Qed.

Lemma take_same_order_fails (l : list Stream) : forall w,
  Exists (fun s => py_index s (i (w_main w)) = None) l ->
  exists w',
    for_each l
      (fun s =>
         m <- get ;;
         x <- index s (i m) ;;
         update (set_syn_trs (syn_trs m ++ [x]))) w = Raise index_error w'
    /\ only_syn_trs_differs w w'.
Proof.
  induction l as [|s l IH]; intros w Hex.
  - inversion Hex.
  - destruct (py_index s (i (w_main w))) as [x|] eqn:Ex.
    + assert (Hl : Exists (fun s => py_index s (i (w_main w)) = None) l).
      { inversion Hex as [s' l' H|s' l' H]; subst; [congruence | exact H]. }
      set (w1 := with_main (set_syn_trs (syn_trs (w_main w) ++ [x])) w).
      destruct (IH w1 Hl) as (w' & Hrun & Hfr).
      exists w'. split.
      * cbn [for_each].
        bind_step ltac:(unfold bind, get, index; rewrite Ex; reflexivity).
        exact Hrun.
      * destruct Hfr as (H1 & H2 & H3 & H4).
        repeat split; [rewrite H1; reflexivity | exact H2 | exact H3 | exact H4].
    + exists w. split; [|repeat split; reflexivity].
      cbn [for_each]. unfold bind, get, index. rewrite Ex. reflexivity.
Qed.

(** X5: with [stream_order] 'same', the synthetic traces of the station
    are trace [main.i] of every synthetic working stream, in the order of
    the streams: one trace per stream, appended to [main.syn_trs], and
    nothing else of the state changes. *)
Theorem synthetics_in_same_order w :
  truthy_list (syn (w_main w)) = true ->
  stream_order (w_main w) = "same"%string ->
  Forall (fun s => py_index s (i (w_main w)) <> None)
         (st_syn_work (w_main w)) ->
  exists w' (picked : Stream),
    select_synthetics w = Ok tt w'
    /\ syn_trs (w_main w') = syn_trs (w_main w) ++ picked
    /\ map Some picked
       = map (fun s => py_index s (i (w_main w))) (st_syn_work (w_main w))
    /\ List.length picked = List.length (st_syn_work (w_main w))
    /\ only_syn_trs_differs w w'.
Proof.
  intros Hsyn Hord Hall.
  destruct (take_same_order (st_syn_work (w_main w)) w Hall)
    as (w' & picked & Hrun & Hst & Hmap & Hfr).
  exists w', picked. split; [|split; [|split; [|split]]]; try assumption.
  - unfold select_synthetics.
    bind_step reflexivity.
    cbn [w_main]. rewrite Hsyn, Hord. cbn [when String.eqb Ascii.eqb Bool.eqb].
    exact Hrun.
  - rewrite <- (length_map Some picked), Hmap, length_map. reflexivity.
Qed.

(** X6: with [stream_order] 'same', a synthetic working stream that has
    no trace at index [main.i] (a synthetic stream shorter than the data
    stream, say) makes the loop raise an IndexError, which nothing
    catches. *)
Theorem short_synthetic_stream_raises w :
  truthy_list (syn (w_main w)) = true ->
  stream_order (w_main w) = "same"%string ->
  Exists (fun s => py_index s (i (w_main w)) = None)
         (st_syn_work (w_main w)) ->
  exists w',
    select_synthetics w = Raise index_error w'
    /\ only_syn_trs_differs w w'.
Proof.
  intros Hsyn Hord Hex.
  destruct (take_same_order_fails (st_syn_work (w_main w)) w Hex)
    as (w' & Hrun & Hfr).
  exists w'. split; [|exact Hfr].
  unfold select_synthetics.
  bind_step reflexivity.
  cbn [w_main]. rewrite Hsyn, Hord. cbn [when String.eqb Ascii.eqb Bool.eqb].
  exact Hrun.
Qed.

(** ** The windows of the spectrum *)

(** What [apply_pick] does not touch. *)
Definition same_station w w' : Prop :=
  tr (w_main w') = tr (w_main w)
  /\ qwindow (w_main w') = qwindow (w_main w)
  /\ current_station (w_main w') = current_station (w_main w)
  /\ w_out w' = w_out w /\ w_reads w' = w_reads w.

(** A window is as it was, or has become the two bounds of a pick. *)
Definition kept_or_picked (before after : option window) : Prop :=
  after = before \/ exists a b : float, after = Some [a; b].

Lemma apply_pick_returns w (t : Trace) (status : string) :
  tr (w_main w) = Some t ->
  exists (s : string) w',
    apply_pick status w = Ok s w' /\ same_station w w'
    /\ kept_or_picked (tw (w_main w)) (tw (w_main w'))
    /\ kept_or_picked (fw (w_main w)) (fw (w_main w'))
    /\ tw_org (w_main w') = tw_org (w_main w)
    /\ verbose (w_main w') = verbose (w_main w)
    /\ syn_trs (w_main w') = syn_trs (w_main w).
Proof.
  intros Htr. unfold apply_pick, kept_or_picked.
  unfold bind at 1, set_pick. unfold bind at 1, get. cbn [w_main with_pick].
  destruct (segments (w_main w)) as [segs|].
  - unfold try_except, bind, current_trace, bind, get, index.
    cbn [w_main with_pick]. rewrite Htr. cbn [ret].
    destruct (py_index _ _) as [p|].
    + cbn [ret set_pick].
      destruct (set_seg_tw (w_main w)), (set_seg_fw (w_main w));
        cbn; eexists; eexists; (split; [reflexivity|]);
        repeat split;
        first [ left; reflexivity | right; eexists; eexists; reflexivity ].
    + cbn [raise is_IndexError index_error exn_cls w_main with_pick].
      rewrite Htr. eexists; eexists; split; [reflexivity|].
      repeat split; left; reflexivity.
  - eexists; eexists; split; [reflexivity|].
    repeat split; left; reflexivity.
Qed.

Lemma with_status_keeps w (t : Trace) (s : string) :
  tr (w_main (with_status t s w)) = tr (w_main w)
  /\ tw (w_main (with_status t s w)) = tw (w_main w)
  /\ fw (w_main (with_status t s w)) = fw (w_main w)
  /\ qwindow (w_main (with_status t s w)) = qwindow (w_main w)
  /\ current_station (w_main (with_status t s w)) = Some (station (stats t))
  /\ w_pick (with_status t s w) = w_pick w
  /\ w_reads (with_status t s w) = w_reads w
  /\ w_out (with_status t s w)
     = w_out w ++ (if is_current t (w_main w) then [] else [Print s]).
Proof.
  unfold with_status, is_current.
  destruct (current_station (w_main w)) as [c|] eqn:Hc.
  - destruct (String.eqb (station (stats t)) c) eqn:E.
    + apply String.eqb_eq in E. subst c. rewrite app_nil_r.
      repeat split. exact Hc.
    + cbn. repeat split.
  - cbn. repeat split.
Qed.

Lemma with_defaults_windows w (t : Trace) :
  tw (w_main (with_defaults t w))
  = Some (match tw (w_main w) with
          | Some l => l
          | None => fst (timewindow t)
          end)
  /\ fw (w_main (with_defaults t w))
     = Some (match fw (w_main w) with
             | Some l => l
             | None => freqwindow
             end).
Proof.
  unfold with_defaults. cbn [with_main w_main].
  destruct (tw (w_main w)) as [l|] eqn:Htw;
    cbn [is_some tw fw set_fw set_tw set_tw_org];
    destruct (fw (w_main w)) as [f|] eqn:Hfw;
    cbn [is_some tw fw set_fw set_tw set_tw_org];
    rewrite ?Htw, ?Hfw; split; reflexivity.
Qed.

(** Lines 206-211 on a state whose windows are set. *)
Lemma fourier_eq w (t : Trace) (l f : window) :
  tr (w_main w) = Some t ->
  tw (w_main w) = Some l ->
  fw (w_main w) = Some f ->
  fourier w
  = match bounds l with
    | None => Raise index_error w
    | Some (t0, t1) =>
        let sp := Spectrum t t0 t1 (syn_trs (w_main w))
                           (taper_shape (w_main w)) (syn_label (w_main w))
                           (data_label (w_main w)) in
        let w1 := with_main (set_spec (Some sp)) (log (NewSpectrum t t0 t1) w) in
        match py_index f 0 with
        | None => Raise index_error w1
        | Some f0 =>
            let w2 := with_main (set_startlabel (Some (flabel sp f0))) w1 in
            match py_index f 1 with
            | None => Raise index_error w2
            | Some f1 =>
                Ok tt (with_main (set_endlabel (Some (flabel sp f1))) w2)
            end
        end
    end.
Proof.
  intros Htr Htw Hfw. unfold fourier, bounds.
  unfold bind at 1, get. unfold bind at 1, current_trace, bind at 1, get.
  rewrite Htr. cbn [ret]. rewrite Htw, Hfw.
  unfold bind, index, emit, update.
  destruct (py_index l 0) as [t0|]; [|reflexivity]. cbn [ret].
  destruct (py_index l 1) as [t1|]; [|reflexivity]. cbn [ret].
  destruct (py_index f 0) as [f0|]; [|reflexivity]. cbn [ret].
  destruct (py_index f 1) as [f1|]; reflexivity.
Qed.

(** The message of the Q-cycle needs both bounds of its window. *)
Lemma qcycle_text_bounds (q : window) (msg : string) :
  qcycle_text q = inr msg -> bounds q <> None.
Proof.
  unfold qcycle_text, bounds.
  destruct (py_index q 0); [|discriminate].
  destruct (py_index q 1); discriminate.
Qed.

(** Lines 156-161 and what they leave alone. *)
Definition reset_tw w : World Obj Spec :=
  with_main (fun m => if is_some (tw_org m) then set_tw (tw_org m) m else m)
    (log (Print (NL ++ "---------------------------")%string) w).

Lemma reset_tw_keeps w :
  tr (w_main (reset_tw w)) = tr (w_main w)
  /\ qwindow (w_main (reset_tw w)) = qwindow (w_main w)
  /\ current_station (w_main (reset_tw w)) = current_station (w_main w)
  /\ segments (w_main (reset_tw w)) = segments (w_main w)
  /\ j (w_main (reset_tw w)) = j (w_main w)
  /\ verbose (w_main (reset_tw w)) = verbose (w_main w)
  /\ syn_trs (w_main (reset_tw w)) = syn_trs (w_main w)
  /\ fw (w_main (reset_tw w)) = fw (w_main w)
  /\ tw_org (w_main (reset_tw w)) = tw_org (w_main w)
  /\ tw (w_main (reset_tw w))
     = match tw_org (w_main w) with
       | Some l => Some l
       | None => tw (w_main w)
       end
  /\ w_out (reset_tw w)
     = w_out w ++ [Print (NL ++ "---------------------------")%string]
  /\ w_reads (reset_tw w) = w_reads w.
Proof.
  unfold reset_tw. cbn [with_main log w_main w_out w_reads].
  destruct (tw_org (w_main w)) as [l|] eqn:E; cbn; rewrite ?E; repeat split.
Qed.

(** Lines 156-180 and 183-203, one after the other. *)
Lemma prepare_eq w (t : Trace) :
  tr (w_main w) = Some t ->
  prepare w = bind (apply_pick (status_header t)) set_windows (reset_tw w).
Proof.
  intros Htr. unfold prepare, reset_tw.
  bind_step reflexivity.
  bind_step ltac:(apply current_trace_Ok; exact Htr).
  bind_step reflexivity.
  bind_step ltac:(apply reset_tw_Ok).
  reflexivity.
Qed.

(** ** Stations without a picked segment *)

Lemma recalculation_stays (k : exit_kind) : exits k never (respectrum ;; plot).
Proof.
  destruct k;
    unfold respectrum, prepare, apply_pick, set_windows, default_windows,
      qcycle, print_status, fourier, plot;
    repeat exits_step.
Qed.

(** C4, as the code has it: when the segments are loaded and the [j]-th
    pick of the current station does not exist, the IndexError is caught,
    the status message gains the line "No picked segments in file for
    <station>" and [pick] is None.  The status message is printed by line
    203 only for a station that is not [main.current_station]; on a
    recalculation of the current station nothing of it is printed.  The
    recalculation goes on with the windows, the spectrum and the plot,
    skips the statistics of line 214 and never leaves the loop body by
    [continue] or [break]; all that can stop lines 156-203 is a pending
    window of the Q-cycle that cannot be printed. *)
Theorem missing_pick_is_caught w (segs : Segments) (t : Trace) :
  tr (w_main w) = Some t ->
  segments (w_main w) = Some segs ->
  py_index (segments_select segs (station (stats t))) (j (w_main w)) = None ->
  let warning :=
    ("No picked segments in file for " ++ station (stats t) ++ NL)%string in
  let status := full_status (w_main w) t (status_header t ++ warning) in
  let line := Print (NL ++ "---------------------------")%string in
  (forall s, apply_pick s w = Ok (s ++ warning)%string (with_pick None w))
  /\ match prepare w with
     | Ok _ w1 =>
         w_pick w1 = None
         /\ w_out w1
            = w_out w ++ line :: qcycle_prints (qwindow (w_main w))
                ++ (if is_current t (w_main w) then [] else [Print status])
     | Raise e w1 =>
         w_pick w1 = None
         /\ w_out w1 = w_out w ++ [line]
         /\ exists q, qwindow (w_main w) = Some q /\ qcycle_text q = inl e
     | Break _ | Continue _ => False
     end
  /\ recalculate w = (respectrum ;; plot) w
  /\ (forall w', recalculate w <> Continue w' /\ recalculate w <> Break w').
Proof.
  intros Htr Hsegs Hp warning status line.
  destruct (reset_tw_keeps w)
    as (Htr0 & Hq0 & Hc0 & Hs0 & Hj0 & Hv0 & Hsy0 & _ & _ & _ & Ho0 & _).
  rewrite Htr in Htr0. rewrite Hsegs in Hs0.
  set (w0 := with_pick None (reset_tw w)).
  assert (Hpick : apply_pick (status_header t) (reset_tw w)
                  = Ok (status_header t ++ warning)%string w0).
  { apply (apply_pick_IndexError (reset_tw w) segs t (status_header t));
      [exact Htr0 | exact Hs0 | rewrite Hj0; exact Hp]. }
  assert (Hprep : prepare w = set_windows (status_header t ++ warning) w0).
  { rewrite (prepare_eq w t Htr). apply bind_Ok. exact Hpick. }
  assert (Htrw0 : tr (w_main w0) = Some t) by exact Htr0.
  assert (Hqw0 : qwindow (w_main w0) = qwindow (w_main w)) by exact Hq0.
  assert (Hst : full_status (w_main w0) t (status_header t ++ warning) = status).
  { unfold status, full_status, w0. cbn [w_main with_pick].
    rewrite Hv0, Hsy0. reflexivity. }
  destruct (with_defaults_keeps w0 t) as (_ & _ & Hcd & Hpd & Hod & _).
  assert (Hcur : forall f,
             current_station (f (w_main (with_defaults t w0)))
             = current_station (w_main (with_defaults t w0)) ->
             is_current t (f (w_main (with_defaults t w0)))
             = is_current t (w_main w)).
  { intros f Hf. unfold is_current. rewrite Hf, Hcd.
    unfold w0. cbn [w_main with_pick]. rewrite Hc0. reflexivity. }
  assert (Hprepared :
    match prepare w with
    | Ok _ w1 =>
        w_pick w1 = None
        /\ w_out w1
           = w_out w ++ line :: qcycle_prints (qwindow (w_main w))
               ++ (if is_current t (w_main w) then [] else [Print status])
    | Raise e w1 =>
        w_pick w1 = None
        /\ w_out w1 = w_out w ++ [line]
        /\ exists q, qwindow (w_main w) = Some q /\ qcycle_text q = inl e
    | Break _ | Continue _ => False
    end).
  { rewrite Hprep, (set_windows_eq w0 t _ Htrw0), Hqw0, Hst.
    unfold qcycle_prints.
    destruct (qwindow (w_main w)) as [q|] eqn:Hq.
    - destruct (qcycle_text q) as [e|msg] eqn:Hqt.
      + split; [exact Hpd|].
        split; [cbn [w_out with_main]; rewrite Hod; exact Ho0|].
        exists q. split; [reflexivity | exact Hqt].
      + match goal with
        | |- context [with_status t status ?x] =>
            destruct (with_status_keeps x t status)
              as (_ & _ & _ & _ & _ & Hp1 & _ & Ho1)
        end.
        split; [rewrite Hp1; exact Hpd|].
        rewrite Ho1. cbn [w_out w_main with_main log].
        rewrite (Hcur (fun m => set_qwindow None (set_tw (Some q) m)) eq_refl).
        rewrite Hod. unfold w0. cbn [w_out with_pick]. rewrite Ho0.
        rewrite <- !app_assoc. reflexivity.
    - destruct (with_status_keeps (with_defaults t w0) t status)
        as (_ & _ & _ & _ & _ & Hp1 & _ & Ho1).
      split; [rewrite Hp1; exact Hpd|].
      rewrite Ho1, (Hcur (fun m => m) eq_refl), Hod.
      unfold w0. cbn [w_out with_pick]. rewrite Ho0.
      rewrite <- !app_assoc. reflexivity. }
  assert (Hskip : recalculate w = (respectrum ;; plot) w).
  { unfold recalculate. unfold bind at 1 3.
    destruct (respectrum w) as [[] w2|w2|w2|e w2] eqn:Hre; try reflexivity.
    unfold respectrum in Hre. apply bind_Ok_inv in Hre.
    destruct Hre as ([] & w1 & H1 & H2). rewrite H1 in Hprepared.
    destruct Hprepared as [Hp1 _].
    assert (Hp2 : no_pick w2).
    { refine (stable_Ok no_pick fourier w1 tt w2 _ Hp1 H2).
      unfold fourier. repeat stable_step; intros ? H; exact H. }
    unfold bind. rewrite (misfit_stats_no_pick w2 Hp2). reflexivity. }
  split; [intros s; exact (apply_pick_IndexError w segs t s Htr Hsegs Hp)|].
  split; [exact Hprepared|].
  split; [exact Hskip|].
  intros w'. rewrite Hskip. split; intros E.
  - apply (recalculation_stays ByContinue w w'). rewrite E. reflexivity.
  - apply (recalculation_stays ByBreak w w'). rewrite E. reflexivity.
Qed.

(** ** When the recalculation returns *)

(** The time window lines 183-203 leave. *)
Definition tw_chosen (t : Trace) m : window :=
  match qwindow m, tw m with
  | Some q, _ => q
  | None, Some l => l
  | None, None => fst (timewindow t)
  end.

Definition fw_chosen m : window :=
  match fw m with
  | Some f => f
  | None => freqwindow
  end.

Lemma set_windows_Ok_inv w (t : Trace) (s : string) wp :
  tr (w_main w) = Some t ->
  set_windows s w = Ok tt wp ->
  tr (w_main wp) = Some t
  /\ tw (w_main wp) = Some (tw_chosen t (w_main w))
  /\ fw (w_main wp) = Some (fw_chosen (w_main w))
  /\ qwindow (w_main wp) = None
  /\ current_station (w_main wp) = Some (station (stats t))
  /\ w_pick wp = w_pick w /\ w_reads wp = w_reads w
  /\ w_out wp
     = w_out w ++ qcycle_prints (qwindow (w_main w))
         ++ (if is_current t (w_main w) then []
             else [Print (full_status (w_main w) t s)])
  /\ (forall q, qwindow (w_main w) = Some q ->
        exists msg, qcycle_text q = inr msg).
Proof.
  intros Htr. rewrite (set_windows_eq w t s Htr).
  destruct (with_defaults_keeps w t) as (Htd & Hqd & Hcd & Hpd & Hod & Hrd).
  destruct (with_defaults_windows w t) as (Htwd & Hfwd).
  assert (Hcur : forall f,
             current_station (f (w_main (with_defaults t w)))
             = current_station (w_main (with_defaults t w)) ->
             is_current t (f (w_main (with_defaults t w)))
             = is_current t (w_main w)).
  { intros f Hf. unfold is_current. rewrite Hf, Hcd. reflexivity. }
  unfold tw_chosen, fw_chosen, qcycle_prints.
  destruct (qwindow (w_main w)) as [q|] eqn:Hq.
  - destruct (qcycle_text q) as [e|msg] eqn:Hqt; [discriminate|].
    intros E. injection E as <-.
    match goal with
    | |- context [with_status t ?s' ?x] =>
        destruct (with_status_keeps x t s')
          as (H1 & H2 & H3 & H4 & H5 & H6 & H7 & H8)
    end.
    rewrite H1, H2, H3, H4, H5, H6, H7, H8.
    cbn [w_main w_out w_pick w_reads with_main log].
    rewrite (Hcur (fun m => set_qwindow None (set_tw (Some q) m)) eq_refl).
    cbn [tr tw fw qwindow set_qwindow set_tw].
    rewrite Htd, Hfwd, Hpd, Hod, Hrd, <- !app_assoc.
    repeat split; try assumption.
    intros q' Hq'. injection Hq' as <-. exists msg. exact Hqt.
  - intros E. injection E as <-.
    destruct (with_status_keeps (with_defaults t w) t (full_status (w_main w) t s))
      as (H1 & H2 & H3 & H4 & H5 & H6 & H7 & H8).
    rewrite H1, H2, H3, H4, H5, H6, H7, H8.
    rewrite (Hcur (fun m => m) eq_refl).
    rewrite Htd, Htwd, Hfwd, Hqd, Hpd, Hod, Hrd.
    repeat split; try assumption. discriminate.
Qed.

Lemma set_windows_returns w (t : Trace) (s : string) :
  tr (w_main w) = Some t ->
  (forall q, qwindow (w_main w) = Some q -> exists msg, qcycle_text q = inr msg) ->
  exists wp, set_windows s w = Ok tt wp.
Proof.
  intros Htr Hq. rewrite (set_windows_eq w t s Htr).
  destruct (qwindow (w_main w)) as [q|]; [|eexists; reflexivity].
  destruct (Hq q eq_refl) as (msg & ->). eexists. reflexivity.
Qed.

(** What lines 206-211 leave alone. *)
Definition shown (t : Trace) (l f : window) (n : nat) w : Prop :=
  tr (w_main w) = Some t
  /\ tw (w_main w) = Some l /\ fw (w_main w) = Some f
  /\ qwindow (w_main w) = None
  /\ current_station (w_main w) = Some (station (stats t))
  /\ w_reads w = n.

Lemma fourier_keeps_shown (t : Trace) (l f : window) (n : nat) :
  stable (shown t l f n) fourier.
Proof.
  unfold fourier. repeat stable_step; intros ? H; exact H.
Qed.

Lemma fourier_Ok w (t : Trace) (l f : window) :
  tr (w_main w) = Some t ->
  tw (w_main w) = Some l ->
  fw (w_main w) = Some f ->
  bounds l <> None -> bounds f <> None ->
  exists w' t0 t1,
    fourier w = Ok tt w'
    /\ bounds l = Some (t0, t1)
    /\ w_out w' = w_out w ++ [NewSpectrum t t0 t1]
    /\ spec (w_main w') <> None.
Proof.
  intros Htr Htw Hfw Hl Hf. rewrite (fourier_eq w t l f Htr Htw Hfw).
  destruct (bounds l) as [[t0 t1]|]; [|contradiction].
  unfold bounds in Hf.
  destruct (py_index f 0) as [f0|]; [|contradiction].
  destruct (py_index f 1) as [f1|]; [|contradiction].
  eexists. exists t0, t1. split; [reflexivity|].
  split; [reflexivity|]. split; [reflexivity | discriminate].
Qed.

(** A window is None or has its two bounds. *)
Definition well_formed (o : option window) : Prop :=
  forall l, o = Some l -> bounds l <> None.

Lemma kept_or_picked_well_formed (before after : option window) :
  kept_or_picked before after -> well_formed before -> well_formed after.
Proof.
  intros [-> | (a & b & ->)] H; [exact H|].
  intros l E. injection E as <-. discriminate.
Qed.

(** Lines 156-203: where the recalculation stands before the Fourier
    transform. *)
Lemma respectrum_eq w (t : Trace) :
  tr (w_main w) = Some t ->
  exists (s : string) wa,
    respectrum w = (set_windows s ;; fourier) wa
    /\ same_station (reset_tw w) wa
    /\ kept_or_picked (tw (w_main (reset_tw w))) (tw (w_main wa))
    /\ kept_or_picked (fw (w_main w)) (fw (w_main wa)).
Proof.
  intros Htr.
  destruct (reset_tw_keeps w)
    as (Htr0 & _ & _ & _ & _ & _ & _ & Hfw0 & _).
  rewrite Htr in Htr0.
  destruct (apply_pick_returns (reset_tw w) t (status_header t) Htr0)
    as (s & wa & Hpick & Hsame & Htw & Hfw & _).
  exists s, wa. rewrite Hfw0 in Hfw.
  split; [|repeat split; try assumption; apply Hsame].
  unfold respectrum. unfold bind at 1. rewrite (prepare_eq w t Htr).
  unfold bind at 1. rewrite Hpick. reflexivity.
Qed.

(** X7: once a trace is selected, lines 156-211 return whenever the
    windows at hand have their two bounds and a pending window of the
    Q-cycle can be printed: a missing pick is caught and windows that are
    None get their defaults.  Afterwards both windows are set and have
    their bounds, a pending window of the Q-cycle has become the time
    window and is consumed, the station is the current station, and a
    Spectrum has been made of the trace and the bounds of the time
    window. *)
Theorem respectrum_returns w (t : Trace) :
  tr (w_main w) = Some t ->
  well_formed (tw_org (w_main w)) ->
  well_formed (tw (w_main w)) ->
  well_formed (fw (w_main w)) ->
  bounds (fst (timewindow t)) <> None ->
  bounds freqwindow <> None ->
  (forall q, qwindow (w_main w) = Some q ->
     exists msg, qcycle_text q = inr msg) ->
  exists w' (tw0 fw0 : window) (t0 t1 : float),
    respectrum w = Ok tt w'
    /\ tr (w_main w') = Some t
    /\ tw (w_main w') = Some tw0 /\ fw (w_main w') = Some fw0
    /\ bounds tw0 = Some (t0, t1) /\ bounds fw0 <> None
    /\ (forall q, qwindow (w_main w) = Some q -> tw0 = q)
    /\ qwindow (w_main w') = None
    /\ current_station (w_main w') = Some (station (stats t))
    /\ spec (w_main w') <> None
    /\ (exists out, w_out w' = out ++ [NewSpectrum t t0 t1])
    /\ w_reads w' = w_reads w.
Proof.
  intros Htr Horg Htw Hfw Hdt Hdf Hq.
  destruct (respectrum_eq w t Htr)
    as (s & wa & Heq & (Htra & Hqa & _ & _ & Hra) & Htwa & Hfwa).
  destruct (reset_tw_keeps w)
    as (Htr0 & Hq0 & _ & _ & _ & _ & _ & _ & _ & Htw0 & _ & Hr0).
  rewrite Htr0, Htr in Htra. rewrite Hq0 in Hqa. rewrite Hr0 in Hra.
  assert (Htw0' : well_formed (tw (w_main (reset_tw w)))).
  { rewrite Htw0. destruct (tw_org (w_main w)) as [l|]; assumption. }
  pose proof (kept_or_picked_well_formed _ _ Htwa Htw0') as Hwtw.
  pose proof (kept_or_picked_well_formed _ _ Hfwa Hfw) as Hwfw.
  assert (Hqa' : forall q, qwindow (w_main wa) = Some q ->
                   exists msg, qcycle_text q = inr msg).
  { intros q E. apply Hq. rewrite <- Hqa. exact E. }
  destruct (set_windows_returns wa t s Htra Hqa') as (wp & Hwin).
  destruct (set_windows_Ok_inv wa t s wp Htra Hwin)
    as (Htrp & Htwp & Hfwp & Hqp & Hcp & _ & Hrp & _ & _).
  assert (Hbt : bounds (tw_chosen t (w_main wa)) <> None).
  { unfold tw_chosen. destruct (qwindow (w_main wa)) as [q|] eqn:E.
    - destruct (Hqa' q eq_refl) as (msg & Hmsg).
      apply (qcycle_text_bounds q msg Hmsg).
    - destruct (tw (w_main wa)) as [l|] eqn:El; [|exact Hdt].
      apply (Hwtw l eq_refl). }
  assert (Hbf : bounds (fw_chosen (w_main wa)) <> None).
  { unfold fw_chosen. destruct (fw (w_main wa)) as [f|] eqn:Ef; [|exact Hdf].
    apply (Hwfw f eq_refl). }
  destruct (fourier_Ok wp t _ _ Htrp Htwp Hfwp Hbt Hbf)
    as (w' & t0 & t1 & Hf & Hb & Hout & Hspec).
  assert (Hshown : shown t (tw_chosen t (w_main wa)) (fw_chosen (w_main wa))
                         (w_reads wp) w').
  { refine (stable_Ok _ fourier wp tt w' (fourier_keeps_shown _ _ _ _) _ Hf).
    repeat split; assumption. }
  destruct Hshown as (Htr' & Htw' & Hfw' & Hq' & Hc' & Hr').
  exists w', (tw_chosen t (w_main wa)), (fw_chosen (w_main wa)), t0, t1.
  split; [rewrite Heq; unfold bind; rewrite Hwin; exact Hf|].
  repeat split; try assumption.
  - intros q E. unfold tw_chosen. rewrite Hqa, E. reflexivity.
  - exists (w_out wp). exact Hout.
  - rewrite Hr', Hrp. exact Hra.
Qed.

(** X8: the status message of a station is printed once.  Recalculating
    the station that was recalculated last prints the separator line and
    makes the Spectrum anew, and prints nothing else; it fails, after the
    separator line, only where line 161 brings back a [main.tw_org] that
    lacks a bound. *)
Theorem status_printed_once w w1 (t : Trace) :
  tr (w_main w) = Some t ->
  respectrum w = Ok tt w1 ->
  let line := Print (NL ++ "---------------------------")%string in
  match respectrum w1 with
  | Ok _ w2 =>
      exists t0 t1 : float, w_out w2 = w_out w1 ++ [line; NewSpectrum t t0 t1]
  | Raise e w2 =>
      e = index_error
      /\ w_out w2 = w_out w1 ++ [line]
      /\ exists l, tw_org (w_main w1) = Some l /\ bounds l = None
  | Break _ | Continue _ => False
  end.
Proof.
  intros Htr Hre line.
  (* the state the first recalculation left *)
  assert (H1 : exists la fa,
             shown t la fa (w_reads w1) w1
             /\ bounds la <> None /\ bounds fa <> None).
  { destruct (respectrum_eq w t Htr)
      as (s & wa & Heq & (Htra & _) & _).
    destruct (reset_tw_keeps w) as (Htr0 & _).
    rewrite Htr0, Htr in Htra.
    rewrite Heq in Hre. apply bind_Ok_inv in Hre.
    destruct Hre as ([] & wp & Hwin & Hf).
    destruct (set_windows_Ok_inv wa t s wp Htra Hwin)
      as (Htrp & Htwp & Hfwp & Hqp & Hcp & _).
    exists (tw_chosen t (w_main wa)), (fw_chosen (w_main wa)).
    split.
    - assert (Hs : shown t (tw_chosen t (w_main wa)) (fw_chosen (w_main wa))
                         (w_reads wp) w1).
      { refine (stable_Ok _ fourier wp tt w1 (fourier_keeps_shown _ _ _ _) _ Hf).
        repeat split; assumption. }
      destruct Hs as (? & ? & ? & ? & ? & _). repeat split; assumption.
    - rewrite (fourier_eq wp t _ _ Htrp Htwp Hfwp) in Hf.
      destruct (bounds (tw_chosen t (w_main wa))) as [[t0 t1]|];
        [|discriminate Hf].
      split; [discriminate|].
      unfold bounds. cbv zeta in Hf.
      destruct (py_index (fw_chosen (w_main wa)) 0); [|discriminate Hf].
      destruct (py_index (fw_chosen (w_main wa)) 1); [|discriminate Hf].
      discriminate. }
  destruct H1 as (la & fa & (Htr1 & Htw1 & Hfw1 & Hq1 & Hc1 & _) & Hla & Hfa).
  (* the second recalculation *)
  destruct (respectrum_eq w1 t Htr1)
    as (s & wb & Heq & (Htrb & Hqb & Hcb & Hob & _) & Htwb & Hfwb).
  destruct (reset_tw_keeps w1)
    as (Htr0 & Hq0 & Hc0 & _ & _ & _ & _ & _ & _ & Htw0 & Ho0 & _).
  rewrite Htr0, Htr1 in Htrb. rewrite Hq0, Hq1 in Hqb.
  rewrite Hc0, Hc1 in Hcb. rewrite Ho0 in Hob.
  assert (Hl2 : exists l2, tw (w_main wb) = Some l2
                  /\ (bounds l2 <> None \/ tw_org (w_main w1) = Some l2)).
  { destruct Htwb as [E | (a & b & E)]; rewrite E.
    - rewrite Htw0. destruct (tw_org (w_main w1)) as [l|].
      + exists l. split; [reflexivity | right; reflexivity].
      + exists la. split; [exact Htw1 | left; exact Hla].
    - exists [a; b]. split; [reflexivity | left; discriminate]. }
  assert (Hf2 : exists f2, fw (w_main wb) = Some f2 /\ bounds f2 <> None).
  { destruct Hfwb as [E | (a & b & E)]; rewrite E.
    - exists fa. split; [exact Hfw1 | exact Hfa].
    - exists [a; b]. split; [reflexivity | discriminate]. }
  destruct Hl2 as (l2 & Htw2 & Hl2). destruct Hf2 as (f2 & Hfw2 & Hf2).
  rewrite Heq. unfold bind. rewrite (set_windows_eq wb t s Htrb), Hqb.
  set (s' := full_status (w_main wb) t s).
  destruct (with_status_keeps (with_defaults t wb) t s')
    as (Ktr & Ktw & Kfw & _ & _ & _ & _ & Kout).
  destruct (with_defaults_keeps wb t) as (Dtr & _ & Dc & _ & Dout & _).
  destruct (with_defaults_windows wb t) as (Dtw & Dfw).
  rewrite Dtr, Htrb in Ktr. rewrite Dtw, Htw2 in Ktw. rewrite Dfw, Hfw2 in Kfw.
  assert (Hcur : is_current t (w_main (with_defaults t wb)) = true).
  { unfold is_current. rewrite Dc, Hcb. apply String.eqb_refl. }
  rewrite Hcur, app_nil_r, Dout, Hob in Kout.
  rewrite (fourier_eq _ t l2 f2 Ktr Ktw Kfw).
  destruct (bounds l2) as [[t0 t1]|] eqn:Hb.
  - cbv zeta. unfold bounds in Hf2.
    destruct (py_index f2 0) as [f0|]; [|contradiction].
    destruct (py_index f2 1) as [f1|]; [|contradiction].
    exists t0, t1. cbn [w_out with_main log]. rewrite Kout, <- app_assoc.
    reflexivity.
  - split; [reflexivity|]. split; [exact Kout|].
    destruct Hl2 as [Hl2 | Hl2]; [contradiction|].
    exists l2. split; [exact Hl2 | exact Hb].
Qed.

(** ** When the recalculation raises *)



Lemma apply_pick_no_segments w (s : string) :
  segments (w_main w) = None -> apply_pick s w = Ok s (with_pick None w).
Proof.
  intros H. unfold apply_pick, bind, set_pick, get.
  cbn [w_main with_pick]. rewrite H. reflexivity.
Qed.

(** X18: a time window without its two bounds, such as the empty list,
    is no default and gets none.  It is false at line 301, so
    [set_defaults_init_main] leaves [main.tw_org] None and the window
    where it is; it is not None at line 187, so [timewindow] is not
    asked; and without a pick or a window of the Q-cycle to replace it,
    line 206 raises an IndexError nothing catches, after the status of
    the station and before any Spectrum is made. *)
Theorem short_time_window_raises w (t : Trace) (l : window) :
  tr (w_main w) = Some t ->
  tw (w_main w) = Some l ->
  bounds l = None ->
  tw_org (w_main w) = None ->
  qwindow (w_main w) = None ->
  segments (w_main w) = None ->
  (forall m, tw m = Some [] ->
     tw (set_defaults_init_main m) = Some []
     /\ tw_org (set_defaults_init_main m) = None)
  /\ exists w',
       respectrum w = Raise index_error w'
       /\ tw (w_main w') = Some l
       /\ spec (w_main w') = spec (w_main w)
       /\ w_out w'
          = w_out w ++ Print (NL ++ "---------------------------")%string
              :: (if is_current t (w_main w) then []
                  else [Print (full_status (w_main w) t (status_header t))]).
Proof.
  intros Htr Htw Hb Horg Hq Hsegs. split.
  { intros m Hm. destruct m as [? ? ? ? ? ? ? ? ? ? ref ? ss tw0 fw0].
    cbn [tw] in Hm. subst tw0.
    destruct ref, ss, fw0 as [[|]|]; vm_compute; split; reflexivity. }
  destruct (reset_tw_keeps w)
    as (Htr0 & Hq0 & Hc0 & Hs0 & _ & Hv0 & Hsy0 & _ & _ & Htw0 & Ho0 & _).
  rewrite Htr in Htr0. rewrite Hq in Hq0. rewrite Hsegs in Hs0.
  rewrite Horg, Htw in Htw0.
  set (w0 := with_pick None (reset_tw w)).
  set (s := full_status (w_main w0) t (status_header t)).
  destruct (with_status_keeps (with_defaults t w0) t s)
    as (Ktr & Ktw & Kfw & _ & _ & _ & _ & Kout).
  destruct (with_defaults_keeps w0 t) as (Dtr & _ & Dc & _ & Dout & _).
  destruct (with_defaults_windows w0 t) as (Dtw & Dfw).
  change (w_main w0) with (w_main (reset_tw w)) in Dtw, Dfw, Dtr, Dc.
  rewrite Dtr, Htr0 in Ktr. rewrite Dtw, Htw0 in Ktw. rewrite Dfw in Kfw.
  assert (Hcur : is_current t (w_main (with_defaults t w0))
                 = is_current t (w_main w)).
  { unfold is_current. rewrite Dc, Hc0. reflexivity. }
  assert (Hs : s = full_status (w_main w) t (status_header t)).
  { unfold s, full_status, w0. cbn [w_main with_pick]. rewrite Hv0, Hsy0.
    reflexivity. }
  exists (with_status t s (with_defaults t w0)). split.
  - unfold respectrum. unfold bind at 1. rewrite (prepare_eq w t Htr).
    unfold bind at 1.
    rewrite (apply_pick_no_segments (reset_tw w) (status_header t) Hs0).
    fold w0. rewrite (set_windows_eq w0 t _ Htr0).
    change (qwindow (w_main w0)) with (qwindow (w_main (reset_tw w))).
    rewrite Hq0. fold s.
    rewrite (fourier_eq _ t l _ Ktr Ktw Kfw), Hb. reflexivity.
  - split; [exact Ktw|].
    split;
      [|rewrite Kout, Hcur, Dout;
        change (w_out w0) with (w_out (reset_tw w));
        rewrite Ho0, Hs, <- app_assoc; reflexivity].
    unfold with_status, with_defaults, w0, reset_tw.
    destruct (is_current _ _);
      cbn [w_main with_main with_pick log];
      destruct (is_some (tw_org (w_main w)));
      cbn [tw fw set_tw set_tw_org spec set_current_station];
      repeat match goal with
             | |- context [if ?b then _ else _] => destruct b
             end; reflexivity.
Qed.

Lemma Ok_inj {A : Type} (a b : A) w1 w2 :
  Ok (Obj := Obj) (Spec := Spec) a w1 = Ok b w2 -> a = b /\ w1 = w2.
Proof. intros H. injection H as -> ->. split; reflexivity. Qed.

(** ** The misfit message *)

Lemma mf_differs_same (mfv : list misfit_entry) :
  mf_eqb mfv mfv = true -> mf_differs mfv (Some mfv) = false.
Proof. intros H. unfold mf_differs. rewrite H. reflexivity. Qed.

(** X9: the misfit message is printed when the misfit changes.  After
    one report, a second report of the same pick on the same spectrum
    prints nothing and changes nothing, provided the misfit equals itself
    (it holds no NaN). *)
Theorem misfit_reported_once w w1 (sp : Spec) (p : Pick)
    (r : float * list misfit_entry) :
  mf_eqb (misfit sp p) (misfit sp p) = true ->
  report_misfit sp p w = Ok r w1 ->
  report_misfit sp p w1 = Ok r w1.
Proof.
  intros Heq H.
  rewrite report_misfit_Ok in H. apply Ok_inj in H. destruct H as [<- <-].
  rewrite report_misfit_Ok. f_equal.
  unfold reported.
  destruct (mf_differs (misfit sp p) (mf (w_main w))) eqn:Hd.
  - cbn [w_main with_main log mf set_mf].
    rewrite (mf_differs_same _ Heq). reflexivity.
  - rewrite Hd. reflexivity.
Qed.

(** X10: a set [main.max_mf] with an empty misfit list (a spectrum
    without synthetics) makes [mf[0][1]] raise an IndexError, which nothing
    catches: the station is neither kept nor removed. *)
Theorem max_mf_without_misfit_raises w (p : Pick) (sp : Spec) (hi : float) :
  w_pick w = Some p ->
  syn (w_main w) <> None ->
  spec (w_main w) = Some sp ->
  misfit sp p = [] ->
  truthy_num (min_snr (w_main w)) = false ->
  max_mf (w_main w) = Some hi ->
  truthy_float hi = true ->
  exists w',
    misfit_stats w = Raise index_error w'
    /\ st_work (w_main w') = st_work (w_main w)
    /\ w_reads w' = w_reads w.
Proof.
  intros Hp Hsyn Hsp Hmf Hlo Hhi Ht.
  rewrite (misfit_stats_eq w sp p Hp Hsyn Hsp).
  destruct (reported_main w sp p) as (Hmin & Hmax & Hst & _).
  assert (Hreads : w_reads (reported sp p w) = w_reads w).
  { unfold reported.
    destruct (mf_differs (misfit sp p) (mf (w_main w))); reflexivity. }
  exists (reported sp p w). split; [|split; assumption].
  unfold apply_thresholds, bind, get. rewrite Hmin.
  destruct (min_snr (w_main w)) as [lo|]; cbn [truthy_num] in Hlo;
    [rewrite Hlo; cbn [andb when ret] | cbn [ret]];
    rewrite Hmax, Hhi, Ht; cbn [when]; rewrite Hmf; reflexivity.
Qed.

(** ** The pick after the segment index wrapped *)

Lemma py_index_in_range {A : Type} (l : list A) (n : Z) :
  - len l <= n < len l -> exists a, py_index l n = Some a.
Proof.
  intros [Hlo Hhi]. unfold py_index. fold (len l).
  destruct (0 <=? n) eqn:E0.
  - apply Z.leb_le in E0.
    destruct (nth_error l (Z.to_nat n)) as [a|] eqn:E; [exists a; reflexivity|].
    apply nth_error_None in E. unfold len in *. lia.
  - apply Z.leb_gt in E0. apply Z.leb_le in Hlo. rewrite Hlo.
    destruct (nth_error l (Z.to_nat (len l + n))) as [a|] eqn:E;
      [exists a; reflexivity|].
    apply nth_error_None in E. apply Z.leb_le in Hlo. unfold len in *. lia.
Qed.

(** X11: when the current station has picked segments and the segment
    index [j] is not below minus their number, the wrap of the index makes
    the selection of the pick succeed: no IndexError, [pick] is the
    segment at [j], or the first one when [j] was at or past the end.  The
    IndexError of a missing pick needs a station without segments or an
    index below minus their number. *)
Theorem pick_found_after_wrap w (segs : Segments) (t : Trace)
    (status : string) :
  segments (w_main w) = Some segs ->
  tr (w_main w) = Some t ->
  let sel := segments_select (segments_sort ["fw2"%string] segs)
                             (station (stats t)) in
  sel <> [] ->
  - len sel <= j (w_main w) ->
  exists w1 (s : string) w2 (p : Pick),
    wrap_segment w = Ok tt w1
    /\ apply_pick status w1 = Ok s w2
    /\ w_pick w2 = Some p
    /\ py_index sel (if len sel <=? j (w_main w) then 0 else j (w_main w))
       = Some p.
Proof.
  intros Hsegs Htr sel Hne Hge.
  assert (Hpos : 0 < len sel).
  { destruct sel; [contradiction|]. unfold len. cbn [List.length]. lia. }
  set (j' := if len sel <=? j (w_main w) then 0 else j (w_main w)).
  assert (Hj' : - len sel <= j' < len sel).
  { unfold j'. destruct (len sel <=? j (w_main w)) eqn:E.
    - lia.
    - apply Z.leb_gt in E. lia. }
  destruct (py_index_in_range sel j' Hj') as [p Hp].
  set (sorted := with_main
                   (set_segments (Some (segments_sort ["fw2"%string] segs))) w).
  set (w1 := if len sel <=? j (w_main w)
             then with_main (set_j 0) (log (Print msg_end_of_segments) sorted)
             else sorted).
  assert (Hw1 : wrap_segment w = Ok tt w1).
  { unfold wrap_segment, bind, get. rewrite Hsegs.
    unfold current_trace, bind, get, update.
    cbn [with_main w_main tr set_segments]. rewrite Htr.
    cbn [ret j set_segments]. fold sel.
    assert (Hz : (len sel =? 0) = false) by (apply Z.eqb_neq; lia).
    rewrite Hz. cbn [negb]. rewrite Bool.andb_true_r. unfold w1.
    destruct (len sel <=? j (w_main w)); reflexivity. }
  assert (Hseg1 : segments (w_main w1)
                  = Some (segments_sort ["fw2"%string] segs)).
  { unfold w1. destruct (len sel <=? j (w_main w)); reflexivity. }
  assert (Htr1 : tr (w_main w1) = Some t).
  { unfold w1. destruct (len sel <=? j (w_main w)); cbn; exact Htr. }
  assert (Hj1 : j (w_main w1) = j').
  { unfold w1, j'. destruct (len sel <=? j (w_main w)); reflexivity. }
  exists w1.
  assert (Hpick : exists s w2, apply_pick status w1 = Ok s w2
                               /\ w_pick w2 = Some p).
  { unfold apply_pick, bind, get, set_pick.
    cbn [with_pick w_main]. rewrite Hseg1.
    unfold try_except, bind, current_trace, bind, get, index.
    cbn [w_main with_pick]. rewrite Htr1. cbn [ret]. fold sel.
    rewrite Hj1, Hp. cbn [ret set_pick].
    destruct (set_seg_tw (w_main w1)), (set_seg_fw (w_main w1));
      cbn; eexists; eexists; split; reflexivity. }
  destruct Hpick as (s & w2 & Ha & Hp2).
  exists s, w2, p. repeat split; assumption.
Qed.

(** ** The defaults *)

(** The four fields the defaults branch on, decided before anything is
    evaluated. *)
Ltac defaults_cases m :=
  destruct m;
  match goal with
  | |- context [Build_Main _ _ _ _ _ _ _ _ _ _ ?ref _ ?ss ?t ?f] =>
      destruct ref; destruct ss;
      destruct t as [[|? ?]|]; destruct f as [[|? ?]|]
  end;
  vm_compute; reflexivity.

(** X12: [set_defaults_init_main] is idempotent: applied to its own
    result it changes nothing. *)
Theorem defaults_idempotent m :
  set_defaults_init_main (set_defaults_init_main m)
  = set_defaults_init_main m.
Proof. defaults_cases m. Qed.

(** X13: the state of the loop cannot be passed to [run] by keyword:
    whatever the caller gives for [min_snr], [max_mf], [segments], [i],
    [i_old], [j], [recalc], [mf], [qwindow] and [current_station] is
    overwritten by the defaults, so the call behaves as if they had not
    been given. *)
Theorem defaults_discard_loop_state m (lo hi : option float)
    (segs : option Segments) (i0 j0 : Z) (saved : option Z) (r : bool)
    (mf0 : option (list misfit_entry)) (q : option window)
    (c : option string) :
  set_defaults_init_main
    (set_min_snr lo (set_max_mf hi (set_segments segs (set_i i0
       (set_i_old saved (set_j j0 (set_recalc r (set_mf mf0
          (set_qwindow q (set_current_station c m))))))))))
  = set_defaults_init_main m.
Proof. defaults_cases m. Qed.

End Properties.

(** * Properties of the grid-file loop *)

Lemma split_on_nonempty (sep : ascii) (s : string) : split_on sep s <> [].
Proof.
  destruct s as [|c s]; cbn [split_on]; [discriminate|].
  destruct (Ascii.eqb c sep); [discriminate|].
  destruct (split_on sep s); discriminate.
Qed.

(** Joining the parts with the separator gives the string back. *)
Lemma join_split_on (sep : ascii) (s : string) :
  join sep (split_on sep s) = s.
Proof.
  induction s as [|c s IH]; cbn [split_on]; [reflexivity|].
  destruct (Ascii.eqb c sep) eqn:E.
  - apply Ascii.eqb_eq in E. subst c.
    pose proof (split_on_nonempty sep s) as Hne.
    destruct (split_on sep s) as [|h t] eqn:Es; [contradiction|].
    cbn [join String.append]. cbn [join] in IH. rewrite IH. reflexivity.
  - destruct (split_on sep s) as [|h t] eqn:Es.
    + exfalso. exact (split_on_nonempty sep s Es).
    + destruct t as [|h' t'].
      * cbn [join] in *. rewrite IH. reflexivity.
      * cbn [join String.append] in *. rewrite IH. reflexivity.
Qed.

Lemma split_on_no_sep (sep : ascii) (s : string) :
  Forall (fun part => has_char sep part = false) (split_on sep s).
Proof.
  induction s as [|c s IH]; cbn [split_on].
  - constructor; [reflexivity | constructor].
  - destruct (Ascii.eqb c sep) eqn:E.
    + constructor; [reflexivity | exact IH].
    + destruct (split_on sep s) as [|h t].
      * constructor; [|constructor]. cbn [has_char]. rewrite E. reflexivity.
      * inversion IH as [|h0 t0 Hh Ht]; subst.
        constructor; [|exact Ht]. cbn [has_char]. rewrite E, Hh. reflexivity.
Qed.

Lemma append_assoc (a b c : string) :
  ((a ++ b) ++ c)%string = (a ++ (b ++ c))%string.
Proof. induction a as [|x a IH]; cbn; [reflexivity | rewrite IH; reflexivity]. Qed.

Lemma join_last (sep : ascii) (l : list string) :
  l <> [] ->
  exists dir,
    join sep l = (dir ++ last l EmptyString)%string
    /\ (dir = EmptyString
        \/ exists d, dir = (d ++ String sep EmptyString)%string).
Proof.
  induction l as [|a l IH]; intros Hne; [contradiction|].
  destruct l as [|b l'].
  - exists EmptyString. split; [reflexivity | left; reflexivity].
  - destruct IH as (dir & Hj & Hd); [discriminate|].
    exists (a ++ String sep dir)%string. split.
    + change (join sep (a :: b :: l'))
        with (a ++ String sep (join sep (b :: l')))%string.
      change (last (a :: b :: l') EmptyString)
        with (last (b :: l') EmptyString).
      rewrite Hj, append_assoc. reflexivity.
    + right. destruct Hd as [-> | (d & ->)].
      * exists a. reflexivity.
      * exists (a ++ String sep d)%string.
        rewrite append_assoc. reflexivity.
Qed.

Lemma py_index_last {A : Type} (l : list A) (d : A) :
  l <> [] -> py_index l (-1) = Some (last l d).
Proof.
  intros Hne. unfold py_index.
  assert (Hlen : (0 < List.length l)%nat)
    by (destruct l; [contradiction | cbn; lia]).
  replace (0 <=? -1) with false by reflexivity.
  assert (E : (- Z.of_nat (List.length l) <=? -1) = true)
    by (apply Z.leb_le; lia).
  rewrite E.
  replace (Z.to_nat (Z.of_nat (List.length l) + -1))
    with (List.length l - 1)%nat by lia.
  clear E Hlen. induction l as [|a l IH]; [contradiction|].
  destruct l as [|b l'].
  - reflexivity.
  - cbn [List.length last]. cbn [List.length] in IH.
    replace (S (S (List.length l')) - 1)%nat with (S (List.length l')) by lia.
    cbn [nth_error].
    replace (S (List.length l') - 1)%nat with (List.length l') in IH by lia.
    apply IH. discriminate.
Qed.

(** X14: the name of a grid file is the part of its path after the last
    slash: [f.split("/")[-1]] never raises, the path is a directory part,
    empty or ending in a slash, followed by the name, and the name holds no
    slash. *)
Theorem name_of_path (f : string) :
  exists dir name,
    name_of f = Some name
    /\ f = (dir ++ name)%string
    /\ has_char "/"%char name = false
    /\ (dir = EmptyString \/ exists d, dir = (d ++ "/")%string).
Proof.
  pose proof (split_on_nonempty "/"%char f) as Hne.
  destruct (join_last "/"%char (split_on "/"%char f) Hne) as (dir & Hj & Hd).
  exists dir, (last (split_on "/"%char f) EmptyString).
  split; [apply py_index_last; exact Hne|].
  split; [rewrite <- Hj, join_split_on; reflexivity|].
  split; [|exact Hd].
  pose proof (split_on_no_sep "/"%char f) as Hall.
  destruct (split_on "/"%char f) as [|a l]; [contradiction|].
  rewrite Forall_forall in Hall. apply Hall.
  apply (exists_last (l := a :: l)) in Hne.
  destruct Hne as (l' & x & ->). rewrite last_last.
  apply in_or_app. right. left. reflexivity.
Qed.

Section Plot_properties.

Variables (str_split : string -> list string)
          (py_int : string -> exn + Z)
          (py_float : string -> exn + float)
          (basemap : float -> float -> float * float).


Lemma plot_line_style (name line : string) (sc : Scatter) :
  plot_line str_split py_int py_float basemap name line = inr (Some sc) ->
  style_of name = Some (sc_color sc, sc_alpha sc, sc_zorder sc)
  /\ sc_s sc = 0.1%float.
Proof.
  unfold plot_line.
  destruct (py_index (str_split line) 2) as [flag|]; [|discriminate].
  destruct (py_int flag) as [e|v]; [discriminate|].
  destruct (v =? 1); [|discriminate].
  destruct (py_index (str_split line) 0) as [a|]; [|discriminate].
  destruct (py_float a) as [e|lon]; [discriminate|].
  destruct (py_index (str_split line) 1) as [b|]; [|discriminate].
  destruct (py_float b) as [e|lat]; [discriminate|].
  destruct (basemap lon lat) as [x y].
  destruct (style_of name) as [[[color alpha] zorder]|]; [|discriminate].
  intros H. injection H as <-. split; reflexivity.
Qed.

Lemma plot_lines_style (name : string) (lines : list string) :
  Forall (fun sc =>
            style_of name = Some (sc_color sc, sc_alpha sc, sc_zorder sc)
            /\ sc_s sc = 0.1%float)
         (fst (plot_lines str_split py_int py_float basemap name lines))
  /\ (List.length
        (fst (plot_lines str_split py_int py_float basemap name lines))
      <= List.length lines)%nat.
Proof.
  induction lines as [|line rest IH]; cbn [plot_lines].
  - split; [constructor | cbn; lia].
  - destruct (plot_line str_split py_int py_float basemap name line)
      as [e|drawn] eqn:E.
    + split; [constructor | cbn; lia].
    + destruct (plot_lines str_split py_int py_float basemap name rest)
        as [more err].
      cbn [fst] in *. destruct IH as [IH1 IH2].
      destruct drawn as [sc|].
      * split; [|cbn [List.length]; lia].
        constructor; [|exact IH1].
        apply (plot_line_style name line sc E).
      * split; [exact IH1 | cbn [List.length]; lia].
Qed.

(** A point in the given colour, alpha and zorder, of size 0.1. *)
Definition styled (color : string) (alpha : float) (zorder : Z)
    (sc : Scatter) : Prop :=
  sc_color sc = color /\ sc_alpha sc = alpha
  /\ sc_s sc = 0.1%float /\ sc_zorder sc = zorder.

(** X15: whatever the lines of a grid file hold, the points drawn for
    "All.yes.grd.txt" are dark red with alpha 0.75 and zorder 500, those
    for "All.may.grd.txt" red ("r") with alpha 0.65 and zorder 300, those
    for "All.no.grd.txt" gray with alpha 0.65 and zorder 200, all of size
    0.1; a file of any other name draws nothing; and no line draws more
    than one point. *)
Theorem points_have_style_of_file (name : string) (lines : list string) :
  let drawn :=
    fst (plot_lines str_split py_int py_float basemap name lines) in
  (name = "All.yes.grd.txt"%string ->
   Forall (styled "darkred" 0.75%float 500) drawn)
  /\ (name = "All.may.grd.txt"%string ->
      Forall (styled "r" 0.65%float 300) drawn)
  /\ (name = "All.no.grd.txt"%string ->
      Forall (styled "gray" 0.65%float 200) drawn)
  /\ (name <> "All.yes.grd.txt"%string -> name <> "All.may.grd.txt"%string ->
      name <> "All.no.grd.txt"%string -> drawn = [])
  /\ (List.length drawn <= List.length lines)%nat.
Proof.
  intros drawn. destruct (plot_lines_style name lines) as [Hall Hlen].
  fold drawn in Hall, Hlen.
  assert (Hstyle : forall (color : string) (alpha : float) (zorder : Z),
             style_of name = Some (color, alpha, zorder) ->
             Forall (styled color alpha zorder) drawn).
  { intros color alpha zorder Hs.
    refine (Forall_impl _ _ Hall). intros sc [H1 H2].
    rewrite Hs in H1. injection H1 as E1 E2 E3.
    unfold styled. repeat split; first [exact H2 | symmetry; assumption]. }
  split; [intros ->; apply Hstyle; reflexivity|].
  split; [intros ->; apply Hstyle; reflexivity|].
  split; [intros ->; apply Hstyle; reflexivity|].
  split; [|exact Hlen].
  intros Hyes Hmay Hno.
  assert (Hnone : style_of name = None).
  { unfold style_of.
    apply String.eqb_neq in Hyes, Hmay, Hno.
    rewrite Hyes, Hmay, Hno. reflexivity. }
  destruct drawn as [|sc l]; [reflexivity|].
  inversion Hall as [|sc' l' [Hs _] _]; subst. congruence.
Qed.

(** X16: the script stops at the first line that raises (a line with
    fewer than three fields, a field that is no number): the points of the
    lines before it are drawn, the lines after it are never read. *)
Theorem stops_at_first_bad_line (name : string) (pre post : list string)
    (bad : string) (e : exn) :
  snd (plot_lines str_split py_int py_float basemap name pre) = None ->
  plot_line str_split py_int py_float basemap name bad = inl e ->
  plot_lines str_split py_int py_float basemap name (pre ++ bad :: post)
  = (fst (plot_lines str_split py_int py_float basemap name pre), Some e).
Proof.
  intros Hpre Hbad.
  induction pre as [|line rest IH]; cbn [app plot_lines].
  - rewrite Hbad. reflexivity.
  - cbn [plot_lines] in Hpre.
    destruct (plot_line str_split py_int py_float basemap name line)
      as [e'|drawn]; [discriminate Hpre|].
    destruct (plot_lines str_split py_int py_float basemap name rest)
      as [more err] eqn:Er.
    cbn [snd] in Hpre. subst err.
    rewrite (IH eq_refl). reflexivity.
Qed.

End Plot_properties.

(** * The properties on the concrete session *)

Section Stepping.

Import Demo.

#[local] Existing Instance stepping.

Lemma end_of_file_wraps_to_start_demo :
  exists w',
    (scope_check ;; pick_current_data) stream_passed = Ok tt w'
    /\ i (w_main w') = 0
    /\ tr (w_main w') = Some (trace_of "AAK").
Proof.
  destruct (end_of_file_wraps_to_start stream_passed)
    as [_ (w' & H1 & H2 & H3)].
  - vm_compute. discriminate.
  - vm_compute. discriminate.
  - reflexivity.
  - exists w'. split; [exact H1|]. split; [exact H2|].
    rewrite H3. reflexivity.
Defined.

Lemma end_of_scope_restores_stream_demo :
  exists w',
    scope_check scope_passed = Ok tt w'
    /\ st_work (w_main w') = stations
    /\ i (w_main w') = 0
    /\ i_old (w_main w') = None.
Proof.
  destruct (end_of_scope_restores_stream scope_passed 0)
    as (w' & H1 & _ & H3 & _ & H5 & H6).
  - vm_compute. discriminate.
  - vm_compute. discriminate.
  - reflexivity.
  - exists w'. split; [exact H1|]. split; [|split; assumption].
    rewrite H3. reflexivity.
Defined.

Lemma missing_pick_is_caught_demo :
  exists w1,
    prepare at_CAN = Ok tt w1
    /\ w_pick w1 = None
    /\ w_out w1
       = w_out at_CAN
         ++ [Print (NL ++ "---------------------------")%string;
             Print (ESC ++ "[94mCurrent station: CAN VHZ" ++ NL ++ ESC
                    ++ "[0m" ++ "No picked segments in file for CAN"
                    ++ NL)%string].
Proof.
  destruct (missing_pick_is_caught at_CAN picks (trace_of "CAN"))
    as (_ & H & _).
  - reflexivity.
  - reflexivity.
  - reflexivity.
  - remember (prepare at_CAN) as r eqn:E.
    destruct r as [[] w1|w1|w1|e w1].
    + destruct H as [Hp Ho]. exists w1. split; [reflexivity|].
      split; [exact Hp|]. rewrite Ho. vm_compute. reflexivity.
    + contradiction.
    + contradiction.
    + destruct H as (_ & _ & q & Hq & _). vm_compute in Hq. discriminate Hq.
Defined.

Lemma segment_index_wraps_demo :
  exists w', wrap_segment past_segments = Ok tt w' /\ j (w_main w') = 0.
Proof.
  destruct (segment_index_wraps past_segments picks (trace_of "AAK"))
    as (w' & H1 & H2 & _).
  - reflexivity.
  - reflexivity.
  - exists w'. split; [exact H1|]. apply H2.
    + vm_compute. discriminate.
    + vm_compute. discriminate.
Defined.


Lemma pick_sets_windows_demo :
  exists w',
    apply_pick EmptyString at_AAK = Ok (segment_msg pick1) w'
    /\ fw (w_main w')
       = Some [PrimFloat.sub 1.5%float 0.05%float;
               PrimFloat.add 1.75%float 0.05%float]
    /\ tw (w_main w') = Some [3%float; 60%float]
    /\ PrimFloat.ltb (PrimFloat.sub 1.5%float 0.05%float) 1.5%float = true
    /\ PrimFloat.ltb 1.75%float (PrimFloat.add 1.75%float 0.05%float) = true.
Proof.
  destruct (pick_sets_windows at_AAK picks (trace_of "AAK") pick1 EmptyString)
    as (w' & H1 & _ & H3 & H4).
  - reflexivity.
  - reflexivity.
  - reflexivity.
  - exists w'. split; [exact H1|].
    split; [rewrite H3; reflexivity|].
    split; [rewrite H4; reflexivity|].
    split; reflexivity.
Defined.



End Stepping.

Section Filtering.

Import Demo.

#[local] Existing Instance filtering.

Lemma filtered_station_is_removed_demo :
  exists w',
    iteration filter_set = Continue w'
    /\ map (fun t => station (stats t)) (st_work (w_main w'))
       = ["BFO"; "CAN"]%string
    /\ py_index (st_work (w_main w')) (i (w_main w')) = Some (trace_of "BFO")
    /\ w_reads w' = w_reads filter_set.
Proof.
  destruct (filtered_station_is_removed filter_set
              filter_set_selected filter_set_spectrum
              pick1 spectrum_AAK)
    as (w' & H1 & H2 & H3 & H4 & H5 & _).
  - reflexivity.
  - reflexivity.
  - reflexivity.
  - reflexivity.
  - vm_compute. discriminate.
  - reflexivity.
  - left. exists 2%float. repeat split.
  - exists w'. split; [exact H1|].
    split; [rewrite H2; reflexivity|].
    split; [|exact H5].
    rewrite H4; [reflexivity|]. vm_compute. discriminate.
Defined.

(** C5 fails on the code: with the minimal signal-to-noise ratio set, the
    second iteration removes the station and goes to the third without
    asking the user. *)
Lemma filtered_iteration_does_not_ask :
  exists w',
    iteration filter_set = Continue w'
    /\ w_reads w' = w_reads filter_set
    /\ w_out w'
       = w_out filter_set
         ++ [Print (NL ++ "---------------------------")%string;
             NewSpectrum (trace_of "AAK") 3%float 60%float;
             RemoveStation false]
    /\ loop 1 filter_set = loop 0 w'.
Proof.
  eexists. split; [vm_compute; reflexivity|].
  split; [reflexivity|]. split; reflexivity.
Qed.

(** C3 fails on the code: in the scope of a search whose one station was
    removed, the index is at the end of the working stream and an index is
    saved, yet the loop takes the no-data exit and restores nothing. *)
Lemma emptied_scope_is_no_data :
  len (st_work (w_main scope_emptied)) <= i (w_main scope_emptied)
  /\ i_old (w_main scope_emptied) = Some 0
  /\ st (w_main scope_emptied) = stations
  /\ exists w',
       scope_check scope_emptied = Break w'
       /\ st_work (w_main w') = []
       /\ i_old (w_main w') = Some 0
       /\ loop 1 scope_emptied = Returned (Some picks) (log PltIoff w').
Proof.
  split; [vm_compute; discriminate|].
  split; [reflexivity|]. split; [reflexivity|].
  eexists. split; [vm_compute; reflexivity|].
  split; [reflexivity|]. split; reflexivity.
Qed.

End Filtering.

Section Helping.

Import Demo.

#[local] Existing Instance helping.

(** C8 fails on the code: after an answer that clears [main.recalc], the
    iteration makes no Spectrum and no misfit statistics; all it does is
    ask the user again. *)
Lemma help_recomputes_nothing :
  recalc (w_main helped) = false
  /\ exists w',
       iteration helped = Ok tt w'
       /\ w_out w' = w_out helped ++ [ProcessInput 1]
       /\ spectra (w_out w') = spectra (w_out helped).
Proof.
  split; [reflexivity|].
  eexists. split; [vm_compute; reflexivity|]. split; reflexivity.
Qed.

Lemma recalc_gates_spectrum_and_misfit_demo :
  (compute helped = Ok tt helped_selected
   /\ spectra (w_out helped_selected) = spectra (w_out helped))
  /\ (exists out,
        w_out help_start_spectrum
        = out ++ [NewSpectrum (trace_of "AAK") 3%float 60%float]
        /\ spectra out = 0%nat).
Proof.
  assert (Hsel : select_data helped = Ok tt helped_selected)
    by (vm_compute; reflexivity).
  assert (Hsel0 : select_data help_start = Ok tt help_start_selected)
    by (vm_compute; reflexivity).
  assert (Hresp : respectrum help_start_selected = Ok tt help_start_spectrum)
    by (vm_compute; reflexivity).
  split.
  - destruct (recalc_gates_spectrum_and_misfit helped helped_selected Hsel)
      as [Hfalse _].
    destruct (Hfalse eq_refl) as (H1 & _ & _ & H4).
    split; assumption.
  - destruct (recalc_gates_spectrum_and_misfit help_start help_start_selected
                Hsel0)
      as [_ Htrue].
    destruct (Htrue eq_refl help_start_spectrum Hresp)
      as (_ & (t & l & t0 & t1 & Ht & Htw & H0 & H1 & _ & out & Hout & Hn)
          & _).
    exists out. split; [|exact Hn].
    rewrite Hout.
    assert (Et : Some t = Some (trace_of "AAK")) by (rewrite <- Ht; reflexivity).
    assert (Ew : Some l = Some [3%float; 60%float])
      by (rewrite <- Htw; reflexivity).
    injection Et as ->. injection Ew as ->.
    vm_compute in H0, H1. injection H0 as <-. injection H1 as <-.
    reflexivity.
Defined.

End Helping.

Section Stepping_further.

Import Demo.

#[local] Existing Instance stepping.

Lemma loop_returns_after_closing_demo :
  (exists out,
      w_out stepping_end
      = out ++ [Print "No data"; QuitSpectrum false;
                PltIoff; PltCloseAll; PltIoff])
  \/ (exists out n,
         w_out stepping_end
         = out ++ [ProcessInput n; PltIoff; PltCloseAll; PltIoff]).
Proof.
  apply (loop_returns_after_closing 5 stepping_start (Some picks) stepping_end).
  vm_compute. reflexivity.
Defined.

Lemma no_threshold_no_removal_demo :
  exit_of ByContinue (iteration stepping_start) = None.
Proof.
  apply no_threshold_no_removal; reflexivity.
Defined.

Lemma negative_station_index_demo :
  (exists w',
      (scope_check ;; pick_current_data) stepped_back = Ok tt w'
      /\ tr (w_main w') = Some (trace_of "CAN"))
  /\ (scope_check ;; pick_current_data) stepped_far_back
     = Raise index_error stepped_far_back.
Proof.
  split.
  - destruct (negative_station_index stepped_back) as [Hin _].
    + vm_compute. discriminate.
    + vm_compute. reflexivity.
    + destruct Hin as (t & w' & H1 & H2 & H3 & _).
      * vm_compute. discriminate.
      * exists w'. split; [exact H1|]. rewrite H2, <- H3. reflexivity.
  - destruct (negative_station_index stepped_far_back) as [_ Hout].
    + vm_compute. discriminate.
    + vm_compute. reflexivity.
    + apply Hout. vm_compute. reflexivity.
Defined.

Lemma synthetics_in_same_order_demo :
  exists w',
    select_synthetics before_synthetics = Ok tt w'
    /\ syn_trs (w_main w') = [trace_of "AAK"].
Proof.
  destruct (synthetics_in_same_order before_synthetics)
    as (w' & picked & H1 & H2 & H3 & _).
  - reflexivity.
  - reflexivity.
  - vm_compute. constructor; [discriminate | constructor].
  - exists w'. split; [exact H1|]. rewrite H2.
    destruct picked as [|x [|y l]]; try discriminate H3.
    injection H3 as ->. reflexivity.
Defined.

Lemma short_synthetic_stream_raises_demo :
  exists w', select_synthetics short_synthetics = Raise index_error w'.
Proof.
  destruct (short_synthetic_stream_raises short_synthetics) as (w' & H & _).
  - reflexivity.
  - reflexivity.
  - vm_compute. apply Exists_cons_hd. reflexivity.
  - exists w'. exact H.
Defined.

Lemma respectrum_returns_demo :
  exists w',
    respectrum qcycle_pending = Ok tt w'
    /\ tw (w_main w') = Some [2.5%float; 48.75%float]
    /\ qwindow (w_main w') = None
    /\ current_station (w_main w') = Some "AAK"%string
    /\ exists out,
         w_out w' = out ++ [NewSpectrum (trace_of "AAK") 2.5%float 48.75%float].
Proof.
  destruct (respectrum_returns qcycle_pending (trace_of "AAK"))
    as (w' & tw0 & fw0 & t0 & t1 & H1 & _ & H3 & _ & H5 & _ & H7 & H8 & H9
        & _ & H11 & _).
  - reflexivity.
  - intros l E. vm_compute in E. discriminate E.
  - intros l E. vm_compute in E. discriminate E.
  - intros l E. vm_compute in E. discriminate E.
  - vm_compute. discriminate.
  - vm_compute. discriminate.
  - intros q E. vm_compute in E. injection E as <-.
    eexists. vm_compute. reflexivity.
  - assert (Etw : tw0 = [2.5%float; 48.75%float])
      by (apply H7; reflexivity).
    subst tw0. vm_compute in H5. injection H5 as <- <-.
    exists w'. repeat split; assumption.
Defined.

Lemma status_printed_once_demo :
  exists w2 (t0 t1 : float),
    respectrum at_AAK_spectrum = Ok tt w2
    /\ w_out w2
       = w_out at_AAK_spectrum
         ++ [Print (NL ++ "---------------------------")%string;
             NewSpectrum (trace_of "AAK") t0 t1].
Proof.
  assert (Hre : respectrum at_AAK = Ok tt at_AAK_spectrum)
    by (vm_compute; reflexivity).
  pose proof (status_printed_once at_AAK at_AAK_spectrum (trace_of "AAK")
                eq_refl Hre) as H.
  cbv zeta in H.
  remember (respectrum at_AAK_spectrum) as r eqn:E.
  destruct r as [[] w2|w2|w2|e w2].
  - destruct H as (t0 & t1 & Ho). exists w2, t0, t1.
    split; [reflexivity | exact Ho].
  - contradiction.
  - contradiction.
  - vm_compute in E. discriminate E.
Defined.


Lemma short_time_window_raises_demo :
  tw (w_main empty_tw) = Some []
  /\ exists w', respectrum empty_tw = Raise index_error w'.
Proof.
  split; [reflexivity|].
  destruct (short_time_window_raises empty_tw (trace_of "AAK") [])
    as (_ & w' & H & _).
  - reflexivity.
  - reflexivity.
  - reflexivity.
  - reflexivity.
  - reflexivity.
  - reflexivity.
  - exists w'. exact H.
Defined.

Lemma points_have_style_of_file_demo :
  Forall (styled "r" 0.65%float 300)
         (fst (plot_lines blanks digits half flat "All.may.grd.txt"
                          ["10 20 1"%string; "30 40 0"%string]))
  /\ List.length
       (fst (plot_lines blanks digits half flat "All.may.grd.txt"
                        ["10 20 1"%string; "30 40 0"%string])) = 1%nat.
Proof.
  split; [|reflexivity].
  apply (points_have_style_of_file blanks digits half flat "All.may.grd.txt"
           ["10 20 1"%string; "30 40 0"%string]).
  reflexivity.
Defined.

Lemma misfit_reported_once_demo :
  report_misfit spectrum_AAK pick1 at_AAK_reported
  = Ok (1%float, [(0%float, 0.5%float)]) at_AAK_reported.
Proof.
  apply (misfit_reported_once at_AAK_spectrum at_AAK_reported).
  - vm_compute. reflexivity.
  - vm_compute. reflexivity.
Defined.

Lemma pick_found_after_wrap_demo :
  exists w1 (s : string) w2,
    wrap_segment past_segments = Ok tt w1
    /\ apply_pick EmptyString w1 = Ok s w2
    /\ w_pick w2 = Some pick1.
Proof.
  destruct (pick_found_after_wrap past_segments picks (trace_of "AAK")
              EmptyString)
    as (w1 & s & w2 & p & H1 & H2 & H3 & H4).
  - reflexivity.
  - reflexivity.
  - vm_compute. discriminate.
  - vm_compute. discriminate.
  - exists w1, s, w2. split; [exact H1|]. split; [exact H2|].
    rewrite H3, <- H4. reflexivity.
Defined.

Lemma stops_at_first_bad_line_demo :
  plot_lines blanks digits half flat "All.yes.grd.txt"
             (["10 20 1"%string; "30 40 0"%string]
              ++ "50 60"%string :: ["70 80 1"%string])%list
  = ([ {| sc_x := 0.5%float; sc_y := 0.5%float; sc_color := "darkred";
          sc_alpha := 0.75%float; sc_s := 0.1%float; sc_zorder := 500 |} ],
     Some index_error).
Proof.
  apply (stops_at_first_bad_line blanks digits half flat "All.yes.grd.txt"
           ["10 20 1"%string; "30 40 0"%string] ["70 80 1"%string] "50 60"
           index_error).
  - reflexivity.
  - reflexivity.
Defined.

End Stepping_further.

Section Filtering_further.

Import Demo.

#[local] Existing Instance filtering.

Lemma continue_only_past_threshold_demo :
  exists w2 (p : Pick) (sp : spectrum),
    w_pick w2 = Some p
    /\ spec (w_main w2) = Some sp
    /\ (below_min_snr (w_main w2) (fst (fst (signal2noise sp p)))
        \/ above_max_mf (w_main w2) (misfit sp p))
    /\ filter_set_dropped = dropped (reported sp p w2).
Proof.
  destruct (continue_only_past_threshold filter_set filter_set_dropped)
    as (w1 & w2 & p & sp & _ & _ & _ & H4 & _ & H6 & H7 & H8).
  - vm_compute. reflexivity.
  - exists w2, p, sp. repeat split; assumption.
Defined.

End Filtering_further.

Section No_misfit.

Import Demo.

#[local] Existing Instance no_misfit.

Lemma max_mf_without_misfit_raises_demo :
  exists w', misfit_stats max_mf_set = Raise index_error w'.
Proof.
  destruct (max_mf_without_misfit_raises max_mf_set pick1 spectrum_AAK
              0.5%float)
    as (w' & H & _).
  - reflexivity.
  - vm_compute. discriminate.
  - reflexivity.
  - reflexivity.
  - reflexivity.
  - reflexivity.
  - reflexivity.
  - exists w'. exact H.
Defined.

End No_misfit.

Section Staying.

Import Demo.

#[local] Existing Instance staying.

(** C4 fails on the code where it has the warning printed.  The third
    station has no pick; its status, warning included, is printed when the
    loop first comes to it.  The user then sets a threshold and the loop
    recalculates the same station: the pick is missing as before, the
    IndexError is caught and the warning is added to the status message,
    but the station is the current station and nothing of the message is
    printed. *)
Lemma repeated_station_gets_no_warning :
  tr (w_main at_CAN_again) = Some (trace_of "CAN")
  /\ segments (w_main at_CAN_again) = Some picks
  /\ py_index (segments_select picks "CAN") (j (w_main at_CAN_again)) = None
  /\ current_station (w_main at_CAN_again) = Some "CAN"%string
  /\ exists w',
       recalculate at_CAN_again = Ok tt w'
       /\ w_pick w' = None
       /\ w_out w'
          = w_out at_CAN_again
            ++ [Print (NL ++ "---------------------------")%string;
                NewSpectrum (trace_of "CAN") 3%float 60%float;
                PlotSpectrum].
Proof.
  split; [reflexivity|]. split; [reflexivity|]. split; [reflexivity|].
  split; [reflexivity|].
  eexists. split; [vm_compute; reflexivity|]. split; reflexivity.
Qed.

End Staying.

Section Picking.

Import Demo.

#[local] Existing Instance picking.


End Picking.
